(** * futurist: periodic worker and executor statistics

    A shallow embedding of [futurist/periodics.py] and of the statistics
    part of [futurist/_futures.py], with the properties of the periodic
    worker and of the statistics gatherer stated and proved over it.

    Conventions of the embedding.

    - Python numbers that carry time (readings of [now_func], spacings,
      [elapsed], [runtime]) are exact rationals [Q]: this is what the code
      computes on [int] and [fractions.Fraction] inputs; on [float] inputs
      the rounding of [+] and [-] is not modelled ([math.fmod] is exact on
      floats too).  Counters are [Z].
    - A Python exception is a value of [exception]; a call that may raise
      returns an [outcome].  Methods that mutate the worker run in the
      state-and-exception monad [M]: what was mutated before a [raise]
      stays mutated.
    - The per-callable metrics dictionaries live in a store ([heap]) and
      are referred to by address: the worker and its watchers hold the
      same address, as they hold the same dictionary in Python.
    - Other threads and the executor are a list of events interleaved
      with the two phases of the dispatch loop; an event is one call of a
      method, one phase of the loop or one completion, taken whole. *)

From Stdlib Require Import QArith Qround Qminmax Lqa ZArith Lia String.
From stdpp Require Import base option list strings gmap.

Local Open Scope Q_scope.

(** ** Exceptions and outcomes *)

Inductive exception : Type :=
| ValueError (msg : string)
| RuntimeError (msg : string)
| TypeError (msg : string)
| KeyError (key : string)
| IndexError (msg : string)
| AttributeError (attr : string)
| CancelledError
| ZeroDivisionError.

Inductive outcome (A : Type) : Type :=
| Return (a : A)
| Raise (e : exception).
Arguments Return {A} a.
Arguments Raise {A} e.

#[global] Instance outcome_ret : MRet outcome := @Return.
#[global] Instance outcome_bind : MBind outcome := fun A B f m =>
  match m with
  | Return a => f a
  | Raise e => Raise e
  end.

Definition returned {A} (o : outcome A) : bool :=
  match o with Return _ => true | Raise _ => false end.

(** ** Numbers *)

(** Python's [max(a, b)]: the first argument unless the second is
    strictly larger. *)
Definition py_max (a b : Q) : Q := if Qlt_le_dec a b then b else a.

(** Rounding toward zero, as C's [trunc]. *)
Definition Qtrunc (q : Q) : Z := if Qlt_le_dec q 0 then Qceiling q else Qfloor q.

(** [math.fmod(x, y)]: [x - n*y] where [n] is [x/y] rounded toward zero;
    the result has the sign of [x].  A zero [y] is a math domain error. *)
Definition fmod (x y : Q) : outcome Q :=
  if Qeq_dec y 0 then Raise (ValueError "math domain error")
  else Return (x - inject_Z (Qtrunc (x / y)) * y).

(** [a / b] on numbers. *)
Definition py_div (a b : Q) : outcome Q :=
  if Qeq_dec b 0 then Raise ZeroDivisionError else Return (a / b).

(** ** Decorated callables *)

(** A Python object handed to the worker.  Each of the three attributes
    of [_REQUIRED_ATTRS] is [None] when the object does not have it. *)
Record callback : Type := {
  cb_name : string;                          (* utils.get_callback_name(cb) *)
  cb_callable : bool;                        (* six.callable(cb) *)
  _is_periodic : option bool;
  _periodic_spacing : option Q;
  _periodic_run_immediately : option bool
}.

Definition _REQUIRED_ATTRS : list string :=
  ["_is_periodic"; "_periodic_spacing"; "_periodic_run_immediately"]%string.

Definition hasattr (obj : callback) (attr_name : string) : bool :=
  if String.eqb attr_name "_is_periodic" then bool_decide (is_Some (_is_periodic obj))
  else if String.eqb attr_name "_periodic_spacing" then bool_decide (is_Some (_periodic_spacing obj))
  else if String.eqb attr_name "_periodic_run_immediately"
       then bool_decide (is_Some (_periodic_run_immediately obj))
  else false.

(** The expected attributes that were not found. *)
Definition _check_attrs (obj : callback) : list string :=
  filter (fun attr_name => hasattr obj attr_name = false) _REQUIRED_ATTRS.

Definition getattr {A} (field : callback → option A) (attr : string) (obj : callback)
  : outcome A :=
  match field obj with
  | Some v => Return v
  | None => Raise (AttributeError attr)
  end.

Definition get_is_periodic := getattr _is_periodic "_is_periodic".
Definition get_periodic_spacing := getattr _periodic_spacing "_periodic_spacing".
Definition get_periodic_run_immediately :=
  getattr _periodic_run_immediately "_periodic_run_immediately".


(** A callable as [@periodic(spacing, run_immediately=...)] leaves it. *)
Definition decorated (name : string) (spacing : Q) (run_immediately enabled : bool)
  : callback :=
  {| cb_name := name; cb_callable := true; _is_periodic := Some enabled;
     _periodic_spacing := Some spacing;
     _periodic_run_immediately := Some run_immediately |}.

(** ** Strategies *)

(** Address of a metrics dictionary in the store. *)
Definition loc : Type := nat.

(** A strategy function, tagged with its parameter list: the call sites
    pass arguments positionally or by keyword, and a call that does not fit
    the parameter list is a [TypeError]. *)
Inductive strategy_func : Type :=
| Def_cb_started_finished_metrics (body : callback → Q → Q → loc → outcome Q)
| Def_cb_metrics_now (body : callback → loc → option Q → outcome Q).

(** [f(cb, started_at, finished_at, metrics)] *)
Definition call_positional4 (f : strategy_func) (cb : callback)
    (started_at finished_at : Q) (metrics : loc) : outcome Q :=
  match f with
  | Def_cb_started_finished_metrics body => body cb started_at finished_at metrics
  | Def_cb_metrics_now _ => Raise (TypeError "takes at most 3 arguments (4 given)")
  end.

(** [f(cb, metrics, now=now)] *)
Definition call_with_now (f : strategy_func) (cb : callback)
    (metrics : loc) (now : option Q) : outcome Q :=
  match f with
  | Def_cb_started_finished_metrics _ =>
      Raise (TypeError "got an unexpected keyword argument 'now'")
  | Def_cb_metrics_now body => body cb metrics now
  end.

(** [random] is bound to the class [SystemRandom] (not to an instance), so
    [random.random()] calls the method without [self]. *)
Definition random_random : outcome Q :=
  Raise (TypeError "random() missing 1 required positional argument: 'self'").

(** The [wrapper] that [_add_jitter] returns: [func] becomes the
    [decorator(cb, metrics, now=None)] that calls it. *)
Definition _add_jitter_wrapper (max_percent_jitter : Q) (func : strategy_func)
  : strategy_func :=
  Def_cb_metrics_now (fun cb metrics now =>
    next_run ← call_with_now func cb metrics now;
    how_often ← get_periodic_spacing cb;
    r ← random_random;
    let jitter := how_often * (r * max_percent_jitter) in
    Return (next_run + jitter)).

Definition _add_jitter (max_percent_jitter : Q)
  : outcome (strategy_func → strategy_func) :=
  if Qlt_le_dec 1 max_percent_jitter then
    Raise (ValueError "Invalid 'max_percent_jitter'")
  else if Qlt_le_dec max_percent_jitter 0 then
    Raise (ValueError "Invalid 'max_percent_jitter'")
  else Return (_add_jitter_wrapper max_percent_jitter).

Definition _last_finished_strategy : strategy_func :=
  Def_cb_started_finished_metrics (fun cb started_at finished_at metrics =>
    how_often ← get_periodic_spacing cb;
    Return (finished_at + how_often)).

Definition _last_started_strategy : strategy_func :=
  Def_cb_started_finished_metrics (fun cb started_at finished_at metrics =>
    how_often ← get_periodic_spacing cb;
    Return (started_at + how_often)).

Definition _aligned_last_finished_strategy : strategy_func :=
  Def_cb_started_finished_metrics (fun cb started_at finished_at metrics =>
    how_often ← get_periodic_spacing cb;
    r ← fmod finished_at how_often;
    let aligned_finished_at := finished_at - r in
    Return (aligned_finished_at + how_often)).

Definition _now_plus_periodicity (cb : callback) (now : Q) : outcome Q :=
  how_often ← get_periodic_spacing cb;
  Return (how_often + now).

Definition DEFAULT_JITTER : Q := 5 # 100.

(** [(post strategy, initial strategy)] by name.  The class body applies
    [_add_jitter(DEFAULT_JITTER)] three times while the table is built. *)
Definition BUILT_IN_STRATEGIES
  : outcome (gmap string (strategy_func * (callback → Q → outcome Q))) :=
  with_jitter ← _add_jitter DEFAULT_JITTER;
  Return (list_to_map
    [ ("last_started", (_last_started_strategy, _now_plus_periodicity));
      ("last_started_jitter",
         (with_jitter _last_started_strategy, _now_plus_periodicity));
      ("last_finished", (_last_finished_strategy, _now_plus_periodicity));
      ("last_finished_jitter",
         (with_jitter _last_finished_strategy, _now_plus_periodicity));
      ("aligned_last_finished",
         (_aligned_last_finished_strategy, _now_plus_periodicity));
      ("aligned_last_finished_jitter",
         (with_jitter _aligned_last_finished_strategy, _now_plus_periodicity)) ]%string).

(** ** The schedule *)

(** [_Schedule._ordering]: the entries [(next_run, index)].
    [_Schedule.push(next_run, index)] is [heappush] of the pair and
    [_Schedule.pop()] is [heappop].  [heapq] is the Python standard
    library; it is taken by its contract, not by the layout of its array: a
    push adds one entry, a pop removes a least entry in the order of Python
    tuples. *)
Definition entry : Type := (Q * nat)%type.

Definition entry_ltb (x y : entry) : bool :=
  match fst x ?= fst y with
  | Lt => true
  | Eq => (snd x <? snd y)%nat
  | Gt => false
  end.

Definition heappush (h : list entry) (x : entry) : list entry := h ++ [x].

Fixpoint pop_least (x : entry) (h : list entry) : entry * list entry :=
  match h with
  | [] => (x, [])
  | y :: h' =>
      let '(m, rest) := pop_least y h' in
      if entry_ltb m x then (m, x :: rest) else (x, m :: rest)
  end.

Definition heappop (h : list entry) : outcome (entry * list entry) :=
  match h with
  | [] => Raise (IndexError "index out of range")
  | x :: h' => Return (pop_least x h')
  end.

(** ** Metrics and watchers *)

Record Metrics : Type := {
  runs : Z;
  elapsed : Q;
  elapsed_waiting : Q;
  failures : Z;
  successes : Z
}.

Definition _INITIAL_METRICS : Metrics :=
  {| runs := 0; elapsed := 0; elapsed_waiting := 0; failures := 0; successes := 0 |}.

(** A watcher holds a reference to a metrics dictionary. *)
Record Watcher : Type := { _metrics : loc }.

(** ** The worker *)

Inductive kind : Type := PERIODIC | IMMEDIATE.

(** [utils.Failure(retain)] *)
Record Failure : Type := { retain : bool }.

Inductive runner : Type := _run_callback_retain | _run_callback_no_retain.

Inductive executor_class : Type :=
| SynchronousExecutor | ThreadPoolExecutor | ProcessPoolExecutor | GreenThreadPoolExecutor.

(** Opaque positional and keyword arguments bound to a callable. *)
Definition pyargs : Type := list string.
Definition _NO_OP_ARGS : pyargs := [].
Definition _NO_OP_KWARGS : pyargs := [].

(** A future handed out by [executor.submit] and not completed yet,
    with the arguments bound into its [_on_done] callback. *)
Record submission : Type := {
  sub_runner : runner;
  sub_kind : kind;
  sub_cb : callback;
  sub_cb_name : string;
  sub_index : nat;
  sub_submitted_at : Q
}.

(** The attributes of a [PeriodicWorker], and with them the part of the
    program state its methods read and write: the store of metrics
    dictionaries, the number of readings taken from [now_func] so far (the
    [n]-th call of [now_func] returns [_now_func n]), and the futures of the
    executor that are not done. *)
Record PeriodicWorker : Type := {
  _tombstone : bool;
  _dead : bool;
  _active : bool;
  _watchers : list (loc * Watcher);
  _callables : list (callback * string * pyargs * pyargs);
  _schedule_strategy : strategy_func;
  _initial_schedule_strategy : callback → Q → outcome Q;
  _immediates : list nat;
  _schedule : list entry;
  _executor_factory : executor_class;
  _now_func : nat → Q;
  heap : list Metrics;
  ticks : nat;
  in_flight : list submission
}.

Definition set_tombstone (b : bool) (s : PeriodicWorker) : PeriodicWorker :=
  {| _tombstone := b; _dead := _dead s; _active := _active s;
     _watchers := _watchers s; _callables := _callables s;
     _schedule_strategy := _schedule_strategy s;
     _initial_schedule_strategy := _initial_schedule_strategy s;
     _immediates := _immediates s; _schedule := _schedule s;
     _executor_factory := _executor_factory s; _now_func := _now_func s;
     heap := heap s; ticks := ticks s; in_flight := in_flight s |}.

Definition set_dead (b : bool) (s : PeriodicWorker) : PeriodicWorker :=
  {| _tombstone := _tombstone s; _dead := b; _active := _active s;
     _watchers := _watchers s; _callables := _callables s;
     _schedule_strategy := _schedule_strategy s;
     _initial_schedule_strategy := _initial_schedule_strategy s;
     _immediates := _immediates s; _schedule := _schedule s;
     _executor_factory := _executor_factory s; _now_func := _now_func s;
     heap := heap s; ticks := ticks s; in_flight := in_flight s |}.

Definition set_active (b : bool) (s : PeriodicWorker) : PeriodicWorker :=
  {| _tombstone := _tombstone s; _dead := _dead s; _active := b;
     _watchers := _watchers s; _callables := _callables s;
     _schedule_strategy := _schedule_strategy s;
     _initial_schedule_strategy := _initial_schedule_strategy s;
     _immediates := _immediates s; _schedule := _schedule s;
     _executor_factory := _executor_factory s; _now_func := _now_func s;
     heap := heap s; ticks := ticks s; in_flight := in_flight s |}.

Definition set_watchers (v : list (loc * Watcher)) (s : PeriodicWorker) : PeriodicWorker :=
  {| _tombstone := _tombstone s; _dead := _dead s; _active := _active s;
     _watchers := v; _callables := _callables s;
     _schedule_strategy := _schedule_strategy s;
     _initial_schedule_strategy := _initial_schedule_strategy s;
     _immediates := _immediates s; _schedule := _schedule s;
     _executor_factory := _executor_factory s; _now_func := _now_func s;
     heap := heap s; ticks := ticks s; in_flight := in_flight s |}.

Definition set_callables (v : list (callback * string * pyargs * pyargs))
    (s : PeriodicWorker) : PeriodicWorker :=
  {| _tombstone := _tombstone s; _dead := _dead s; _active := _active s;
     _watchers := _watchers s; _callables := v;
     _schedule_strategy := _schedule_strategy s;
     _initial_schedule_strategy := _initial_schedule_strategy s;
     _immediates := _immediates s; _schedule := _schedule s;
     _executor_factory := _executor_factory s; _now_func := _now_func s;
     heap := heap s; ticks := ticks s; in_flight := in_flight s |}.

Definition set_strategies (post : strategy_func) (initial : callback → Q → outcome Q)
    (s : PeriodicWorker) : PeriodicWorker :=
  {| _tombstone := _tombstone s; _dead := _dead s; _active := _active s;
     _watchers := _watchers s; _callables := _callables s;
     _schedule_strategy := post;
     _initial_schedule_strategy := initial;
     _immediates := _immediates s; _schedule := _schedule s;
     _executor_factory := _executor_factory s; _now_func := _now_func s;
     heap := heap s; ticks := ticks s; in_flight := in_flight s |}.

Definition set_immediates (v : list nat) (s : PeriodicWorker) : PeriodicWorker :=
  {| _tombstone := _tombstone s; _dead := _dead s; _active := _active s;
     _watchers := _watchers s; _callables := _callables s;
     _schedule_strategy := _schedule_strategy s;
     _initial_schedule_strategy := _initial_schedule_strategy s;
     _immediates := v; _schedule := _schedule s;
     _executor_factory := _executor_factory s; _now_func := _now_func s;
     heap := heap s; ticks := ticks s; in_flight := in_flight s |}.

Definition set_schedule (v : list entry) (s : PeriodicWorker) : PeriodicWorker :=
  {| _tombstone := _tombstone s; _dead := _dead s; _active := _active s;
     _watchers := _watchers s; _callables := _callables s;
     _schedule_strategy := _schedule_strategy s;
     _initial_schedule_strategy := _initial_schedule_strategy s;
     _immediates := _immediates s; _schedule := v;
     _executor_factory := _executor_factory s; _now_func := _now_func s;
     heap := heap s; ticks := ticks s; in_flight := in_flight s |}.

Definition set_heap (v : list Metrics) (s : PeriodicWorker) : PeriodicWorker :=
  {| _tombstone := _tombstone s; _dead := _dead s; _active := _active s;
     _watchers := _watchers s; _callables := _callables s;
     _schedule_strategy := _schedule_strategy s;
     _initial_schedule_strategy := _initial_schedule_strategy s;
     _immediates := _immediates s; _schedule := _schedule s;
     _executor_factory := _executor_factory s; _now_func := _now_func s;
     heap := v; ticks := ticks s; in_flight := in_flight s |}.

Definition set_ticks (v : nat) (s : PeriodicWorker) : PeriodicWorker :=
  {| _tombstone := _tombstone s; _dead := _dead s; _active := _active s;
     _watchers := _watchers s; _callables := _callables s;
     _schedule_strategy := _schedule_strategy s;
     _initial_schedule_strategy := _initial_schedule_strategy s;
     _immediates := _immediates s; _schedule := _schedule s;
     _executor_factory := _executor_factory s; _now_func := _now_func s;
     heap := heap s; ticks := v; in_flight := in_flight s |}.

Definition set_in_flight (v : list submission) (s : PeriodicWorker) : PeriodicWorker :=
  {| _tombstone := _tombstone s; _dead := _dead s; _active := _active s;
     _watchers := _watchers s; _callables := _callables s;
     _schedule_strategy := _schedule_strategy s;
     _initial_schedule_strategy := _initial_schedule_strategy s;
     _immediates := _immediates s; _schedule := _schedule s;
     _executor_factory := _executor_factory s; _now_func := _now_func s;
     heap := heap s; ticks := ticks s; in_flight := v |}.

(** ** The monad of the worker's methods *)

Definition M (A : Type) : Type := PeriodicWorker → outcome A * PeriodicWorker.

#[global] Instance M_ret : MRet M := fun A a self => (Return a, self).
#[global] Instance M_bind : MBind M := fun A B f m self =>
  match m self with
  | (Return a, self') => f a self'
  | (Raise e, self') => (Raise e, self')
  end.

Definition get : M PeriodicWorker := fun self => (Return self, self).
Definition modify (f : PeriodicWorker → PeriodicWorker) : M unit :=
  fun self => (Return tt, f self).
Definition raise {A} (e : exception) : M A := fun self => (Raise e, self).
Definition lift {A} (o : outcome A) : M A := fun self => (o, self).

(** [self._now_func()] *)
Definition call_now_func : M Q :=
  fun self => (Return (_now_func self (ticks self)), set_ticks (S (ticks self)) self).

(** [d = _INITIAL_METRICS.copy()]: a new dictionary in the store. *)
Definition new_metrics (m : Metrics) : M loc :=
  fun self => (Return (length (heap self)), set_heap (heap self ++ [m]) self).

(** [d[...]] for a dictionary of the store. *)
Definition read_metrics (l : loc) : M Metrics :=
  fun self =>
    match heap self !! l with
    | Some m => (Return m, self)
    | None => (Raise (KeyError "metrics"), self)
    end.

(** In-place update of a dictionary of the store. *)
Definition update_metrics (l : loc) (f : Metrics → Metrics) : M unit :=
  m ← read_metrics l;
  modify (fun self => set_heap (<[l := f m]> (heap self)) self).

Definition is_empty {A} (l : list A) : bool :=
  match l with [] => true | _ :: _ => false end.

(** [enumerate(l, start)] *)
Fixpoint enumerate_from {A} (start : nat) (l : list A) : list (nat * A) :=
  match l with
  | [] => []
  | x :: l' => (start, x) :: enumerate_from (S start) l'
  end.

(** [enumerate(l)] *)
Definition enumerate {A} (l : list A) : list (nat * A) := enumerate_from 0 l.

(** *** Watcher properties *)

Definition Watcher_runs (self : Watcher) : M Z :=
  m ← read_metrics (_metrics self); mret (runs m).
Definition Watcher_successes (self : Watcher) : M Z :=
  m ← read_metrics (_metrics self); mret (successes m).
Definition Watcher_failures (self : Watcher) : M Z :=
  m ← read_metrics (_metrics self); mret (failures m).
Definition Watcher_elapsed (self : Watcher) : M Q :=
  m ← read_metrics (_metrics self); mret (elapsed m).
Definition Watcher_elapsed_waiting (self : Watcher) : M Q :=
  m ← read_metrics (_metrics self); mret (elapsed_waiting m).
Definition Watcher_average_elapsed_waiting (self : Watcher) : M Q :=
  m ← read_metrics (_metrics self);
  lift (py_div (elapsed_waiting m) (inject_Z (runs m))).
Definition Watcher_average_elapsed (self : Watcher) : M Q :=
  m ← read_metrics (_metrics self);
  lift (py_div (elapsed m) (inject_Z (runs m))).

(** *** Building the schedule *)

Fixpoint _build_loop (next_run_scheduler : callback → Q → outcome Q)
    (items : list (nat * (callback * string * pyargs * pyargs)))
    (schedule : list entry) (now : option Q) (immediates : list nat)
  : M (list nat * list entry) :=
  match items with
  | [] => mret (immediates, schedule)
  | (index, (cb, _cb_name, _args, _kwargs)) :: items' =>
      run_immediately ← lift (get_periodic_run_immediately cb);
      if run_immediately : bool then
        _build_loop next_run_scheduler items' schedule now (immediates ++ [index])
      else
        now' ← match now with
                | None => call_now_func
                | Some t => mret t
                end;
        next_run ← lift (next_run_scheduler cb now');
        _build_loop next_run_scheduler items'
                    (heappush schedule (next_run, index)) (Some now') immediates
  end.

Definition _build (callables : list (callback * string * pyargs * pyargs))
    (next_run_scheduler : callback → Q → outcome Q) : M (list nat * list entry) :=
  _build_loop next_run_scheduler (enumerate callables) [] None [].

(** *** Construction *)

(** The loop of [__init__] over the [(cb, args, kwargs)] given. *)
Fixpoint init_callables
    (callables : list (callback * option pyargs * option pyargs)) : M unit :=
  match callables with
  | [] => mret tt
  | (cb, args, kwargs) :: rest =>
      if negb (cb_callable cb) then
        raise (ValueError "Periodic callback must be callable")
      else if negb (is_empty (_check_attrs cb)) then
        raise (ValueError "Periodic callback missing required attributes")
      else
        enabled ← lift (get_is_periodic cb);
        (if enabled : bool then
           let args := default _NO_OP_ARGS args in
           let kwargs := default _NO_OP_KWARGS kwargs in
           let cb_name := cb_name cb in
           cb_metrics ← new_metrics _INITIAL_METRICS;
           let watcher := {| _metrics := cb_metrics |} in
           modify (fun self =>
             set_callables (_callables self ++ [(cb, cb_name, args, kwargs)]) self);;
           modify (fun self =>
             set_watchers (_watchers self ++ [(cb_metrics, watcher)]) self)
         else mret tt);;
        init_callables rest
  end.

Definition __init__
    (callables : list (callback * option pyargs * option pyargs))
    (schedule_strategy : string) : M unit :=
  init_callables callables;;
  table ← lift BUILT_IN_STRATEGIES;
  match table !! schedule_strategy with
  | Some strategy =>
      modify (set_strategies strategy.1 strategy.2)
  | None =>
      raise (ValueError "Scheduling strategy must be one of the selectable strategies")
  end;;
  self ← get;
  '(immediates, schedule) ← _build (_callables self) (_initial_schedule_strategy self);
  modify (set_immediates immediates);;
  modify (set_schedule schedule).

(** The object before the body of [__init__] has run: the events are
    clear and the two arrays are empty.  The attributes that [__init__]
    assigns later hold stand-ins until then; nothing reads them before. *)
Definition fresh (executor_factory : executor_class) (now_func : nat → Q)
  : PeriodicWorker :=
  {| _tombstone := false; _dead := false; _active := false;
     _watchers := []; _callables := [];
     _schedule_strategy := _last_started_strategy;
     _initial_schedule_strategy := _now_plus_periodicity;
     _immediates := []; _schedule := [];
     _executor_factory := executor_factory; _now_func := now_func;
     heap := []; ticks := 0; in_flight := [] |}.

(** [PeriodicWorker(callables, executor_factory=..., schedule_strategy=...,
    now_func=...)] *)
Definition new_PeriodicWorker
    (callables : list (callback * option pyargs * option pyargs))
    (executor_factory : executor_class) (schedule_strategy : string)
    (now_func : nat → Q) : outcome PeriodicWorker :=
  match __init__ callables schedule_strategy (fresh executor_factory now_func) with
  | (Return _, self) => Return self
  | (Raise e, _) => Raise e
  end.

(** [len(worker)] *)
Definition __len__ (self : PeriodicWorker) : nat := length (_callables self).

(** *** add, stop, reset, iter_watchers *)

Definition add (cb : callback) (args kwargs : pyargs) : M (option Watcher) :=
  if negb (cb_callable cb) then
    raise (ValueError "Periodic callback must be callable")
  else if negb (is_empty (_check_attrs cb)) then
    raise (ValueError "Periodic callback missing required attributes")
  else
    enabled ← lift (get_is_periodic cb);
    if negb enabled then mret None
    else
      now ← call_now_func;
      self ← get;
      let cb_index := length (_callables self) in
      let cb_name := cb_name cb in
      cb_metrics ← new_metrics _INITIAL_METRICS;
      let watcher := {| _metrics := cb_metrics |} in
      modify (fun self =>
        set_callables (_callables self ++ [(cb, cb_name, args, kwargs)]) self);;
      modify (fun self =>
        set_watchers (_watchers self ++ [(cb_metrics, watcher)]) self);;
      run_immediately ← lift (get_periodic_run_immediately cb);
      (if run_immediately : bool then
         modify (fun self => set_immediates (_immediates self ++ [cb_index]) self)
       else
         self ← get;
         next_run ← lift (_initial_schedule_strategy self cb now);
         modify (fun self =>
           set_schedule (heappush (_schedule self) (next_run, cb_index)) self));;
      mret (Some watcher).

Definition stop : M unit := modify (set_tombstone true).

Definition iter_watchers (self : PeriodicWorker) : list Watcher :=
  map snd (_watchers self).

(** [for k in list(cb_metrics.keys()): cb_metrics[k] = 0] *)
Definition zero_all_keys (m : Metrics) : Metrics :=
  {| runs := 0; elapsed := 0; elapsed_waiting := 0; failures := 0; successes := 0 |}.

Fixpoint reset_metrics (watchers : list (loc * Watcher)) : M unit :=
  match watchers with
  | [] => mret tt
  | (cb_metrics, _watcher) :: rest =>
      update_metrics cb_metrics zero_all_keys;;
      reset_metrics rest
  end.

Definition reset : M unit :=
  modify (set_tombstone false);;
  modify (set_dead false);;
  self ← get;
  reset_metrics (_watchers self);;
  self ← get;
  '(immediates, schedule) ← _build (_callables self) (_initial_schedule_strategy self);
  modify (set_immediates immediates);;
  modify (set_schedule schedule).

(** *** Running a callable *)

(** [_run_callback_retain] and [_run_callback_no_retain]: two readings of
    the clock around the call; [raised] tells whether the callable raised
    an [Exception]. *)
Definition run_callback (r : runner) (raised : bool) : M (Q * Q * option Failure) :=
  started_at ← call_now_func;
  let failure :=
    if raised then
      Some {| retain := match r with
                        | _run_callback_retain => true
                        | _run_callback_no_retain => false
                        end |}
    else None in
  finished_at ← call_now_func;
  mret (started_at, finished_at, failure).

(** [self._on_failure] is [_on_failure_log] bound to the logger: it writes
    to the log and returns. *)
Definition _on_failure (cb : callback) (k : kind) (spacing : Q) (failure : Failure)
  : M unit := mret tt.

Definition incr_runs (m : Metrics) : Metrics :=
  {| runs := runs m + 1; elapsed := elapsed m; elapsed_waiting := elapsed_waiting m;
     failures := failures m; successes := successes m |}.
Definition incr_failures (m : Metrics) : Metrics :=
  {| runs := runs m; elapsed := elapsed m; elapsed_waiting := elapsed_waiting m;
     failures := failures m + 1; successes := successes m |}.
Definition incr_successes (m : Metrics) : Metrics :=
  {| runs := runs m; elapsed := elapsed m; elapsed_waiting := elapsed_waiting m;
     failures := failures m; successes := successes m + 1 |}.
Definition add_elapsed (d : Q) (m : Metrics) : Metrics :=
  {| runs := runs m; elapsed := elapsed m + d; elapsed_waiting := elapsed_waiting m;
     failures := failures m; successes := successes m |}.
Definition add_elapsed_waiting (d : Q) (m : Metrics) : Metrics :=
  {| runs := runs m; elapsed := elapsed m; elapsed_waiting := elapsed_waiting m + d;
     failures := failures m; successes := successes m |}.

(** [self._watchers[index]] and [self._callables[index]] *)
Definition watcher_at (index : nat) : M (loc * Watcher) :=
  self ← get;
  match _watchers self !! index with
  | Some x => mret x
  | None => raise (IndexError "list index out of range")
  end.

Definition callable_at (index : nat) : M (callback * string * pyargs * pyargs) :=
  self ← get;
  match _callables self !! index with
  | Some x => mret x
  | None => raise (IndexError "list index out of range")
  end.

(** The completion callback; [fut] is what [fut.result()] gives. *)
Definition _on_done (k : kind) (cb : callback) (cb_name : string) (index : nat)
    (submitted_at : Q) (fut : outcome (Q * Q * option Failure)) : M unit :=
  '(started_at, finished_at, failure) ← lift fut;
  '(cb_metrics, _watcher) ← watcher_at index;
  update_metrics cb_metrics incr_runs;;
  match failure with
  | Some f =>
      update_metrics cb_metrics incr_failures;;
      spacing ← lift (get_periodic_spacing cb);
      _on_failure cb k spacing f
  | None =>
      update_metrics cb_metrics incr_successes
  end;;
  let elapsed := py_max 0 (finished_at - started_at) in
  let elapsed_waiting := py_max 0 (started_at - submitted_at) in
  update_metrics cb_metrics (add_elapsed elapsed);;
  update_metrics cb_metrics (add_elapsed_waiting elapsed_waiting);;
  self ← get;
  next_run ← lift (call_positional4 (_schedule_strategy self) cb
                                     started_at finished_at cb_metrics);
  modify (fun self => set_schedule (heappush (_schedule self) (next_run, index)) self).

(** [fut = executor.submit(runner, self._now_func, cb, ...)] followed by
    [fut.add_done_callback(functools.partial(_on_done, kind, cb, cb_name,
    index, submitted_at))]: the future is pending until the executor
    completes it. *)
Definition submit (r : runner) (k : kind) (cb : callback) (cb_name : string)
    (index : nat) (submitted_at : Q) : M unit :=
  modify (fun self =>
    set_in_flight (in_flight self ++
      [{| sub_runner := r; sub_kind := k; sub_cb := cb; sub_cb_name := cb_name;
          sub_index := index; sub_submitted_at := submitted_at |}]) self).

(** *** The two phases of the dispatch loop *)

Definition _process_immediates (r : runner) : M unit :=
  self ← get;
  match _immediates self with
  | [] => mret tt
  | index :: rest =>
      modify (set_immediates rest);;
      '(cb, cb_name, args, kwargs) ← callable_at index;
      submitted_at ← call_now_func;
      submit r IMMEDIATE cb cb_name index submitted_at
  end.

(** A [self._waiter.wait(...)] gives the turn to the other threads; when
    it is the wait of the [while], the conditions tested after it are those
    the outer loop tests next, so the model returns to the outer loop. *)
Definition _process_scheduled (r : runner) : M unit :=
  self ← get;
  if is_empty (_schedule self) && negb (_tombstone self) && is_empty (_immediates self)
  then mret tt
  else if _tombstone self then mret tt
  else if negb (is_empty (_immediates self)) then mret tt
  else
    now ← call_now_func;
    let submitted_at := now in
    '((next_run, index), rest) ← lift (heappop (_schedule self));
    modify (set_schedule rest);;
    let when_next := next_run - now in
    if Qle_bool when_next 0 then
      '(cb, cb_name, args, kwargs) ← callable_at index;
      submit r PERIODIC cb cb_name index submitted_at
    else
      modify (fun self => set_schedule (heappush (_schedule self) (next_run, index)) self).

(** *** start *)

Definition select_runner (executor : executor_class) : runner :=
  match executor with
  | ProcessPoolExecutor => _run_callback_no_retain
  | _ => _run_callback_retain
  end.

(** [start] up to the [try]. *)
Definition start_begin (allow_empty : bool) : M runner :=
  self ← get;
  if is_empty (_callables self) && negb allow_empty then
    raise (RuntimeError "A periodic worker can not start without any callables")
  else if _active self then
    raise (RuntimeError "A periodic worker can not be started twice")
  else
    let executor := _executor_factory self in
    let r := select_runner executor in
    modify (set_dead false);;
    modify (set_active true);;
    mret r.

(** The [finally] of [start], after [executor.shutdown()] has returned
    ([_on_finish] only writes to the log). *)
Definition start_finally : M unit :=
  modify (set_dead true);;
  modify (set_active false).

(** *** Events *)

(** What happens to a worker: calls from the threads that own it, a
    completion by the executor ([EvDone k raised]: the [k]-th pending
    future is run to its end and its callback is called), and the steps of
    the thread that is inside [start]. *)
Inductive event : Type :=
| EvAdd (cb : callback) (args kwargs : pyargs)
| EvStop
| EvReset
| EvDone (k : nat) (raised : bool)
| EvImmediates
| EvScheduled
| EvStartBegin (allow_empty : bool)
| EvStartFinally.

Definition complete (k : nat) (raised : bool) : M unit :=
  self ← get;
  match in_flight self !! k with
  | None => mret tt
  | Some sub =>
      modify (set_in_flight (delete k (in_flight self)));;
      result ← run_callback (sub_runner sub) raised;
      _on_done (sub_kind sub) (sub_cb sub) (sub_cb_name sub) (sub_index sub)
               (sub_submitted_at sub) (Return result)
  end.

Definition exec_event (ev : event) : M unit :=
  match ev with
  | EvAdd cb args kwargs => add cb args kwargs;; mret tt
  | EvStop => stop
  | EvReset => reset
  | EvDone k raised => complete k raised
  | EvImmediates => self ← get; _process_immediates (select_runner (_executor_factory self))
  | EvScheduled => self ← get; _process_scheduled (select_runner (_executor_factory self))
  | EvStartBegin allow_empty => start_begin allow_empty;; mret tt
  | EvStartFinally => start_finally
  end.

(** The state after the events; an exception raised by one of them goes to
    its caller (for a completion callback: to the executor, which logs it),
    and the state goes on from what was mutated. *)
Definition exec_events (evs : list event) (self : PeriodicWorker) : PeriodicWorker :=
  foldl (fun s ev => snd (exec_event ev s)) self evs.

(** [_run]: while the tombstone is clear, one call of each phase.  The
    script gives, for each turn of the loop, what the other threads and the
    executor do after the first phase and after the second; [None] when the
    loop is still running at the end of the script. *)
Fixpoint _run (r : runner) (script : list (list event * list event))
    (self : PeriodicWorker) : option (outcome unit * PeriodicWorker) :=
  if _tombstone self then Some (Return tt, self)
  else
    match script with
    | [] => None
    | (after_immediates, after_scheduled) :: script' =>
        match _process_immediates r self with
        | (Raise e, s1) => Some (Raise e, s1)
        | (Return _, s1) =>
            match _process_scheduled r (exec_events after_immediates s1) with
            | (Raise e, s2) => Some (Raise e, s2)
            | (Return _, s2) => _run r script' (exec_events after_scheduled s2)
            end
        end
    end.

(** [start(allow_empty)].  [executor.shutdown()] waits for the pending
    futures: [drain] is what happens meanwhile, and the call has not
    returned ([None]) while a future is pending. *)
Definition start (allow_empty : bool) (script : list (list event * list event))
    (drain : list event) (self : PeriodicWorker)
  : option (outcome unit * PeriodicWorker) :=
  match start_begin allow_empty self with
  | (Raise e, s) => Some (Raise e, s)
  | (Return r, s) =>
      match _run r script s with
      | None => None
      | Some (res, s1) =>
          let s2 := exec_events drain s1 in
          if is_empty (in_flight s2) then Some (res, snd (start_finally s2))
          else None
      end
  end.

(** [wait]: blocks on [_dead] and reports whether it is set. *)
Definition wait (self : PeriodicWorker) : bool := _dead self.

(** ** Executor statistics ([_futures.py]) *)

Record ExecutorStatistics : Type := {
  _failures : Z;
  _executed : Z;
  _runtime : Q;
  _cancelled : Z
}.

(** [ExecutorStatistics()] *)
Definition new_ExecutorStatistics : ExecutorStatistics :=
  {| _failures := 0; _executed := 0; _runtime := 0; _cancelled := 0 |}.

Definition average_runtime (self : ExecutorStatistics) : outcome Q :=
  py_div (_runtime self) (inject_Z (_executed self)).

(** A future in a terminal state: cancelled, or finished with a result or
    with an exception. *)
Inductive Future : Type :=
| CANCELLED
| FINISHED (exc : option exception).

Definition Future_cancelled (fut : Future) : bool :=
  match fut with CANCELLED => true | FINISHED _ => false end.

Definition Future_exception (fut : Future) : outcome (option exception) :=
  match fut with
  | CANCELLED => Raise CancelledError
  | FINISHED exc => Return exc
  end.

Record _Gatherer : Type := {
  _stats : ExecutorStatistics;
  _start_before_submit : bool
}.

Definition new_Gatherer (start_before_submit : bool) : _Gatherer :=
  {| _stats := new_ExecutorStatistics; _start_before_submit := start_before_submit |}.

Definition statistics (self : _Gatherer) : ExecutorStatistics := _stats self.

Definition clear (self : _Gatherer) : _Gatherer :=
  {| _stats := new_ExecutorStatistics;
     _start_before_submit := _start_before_submit self |}.

(** [_capture_stats(started_at, fut)]; [now] is the reading of
    [_utils.now()] the call takes. *)
Definition _capture_stats (now : Q) (started_at : Q) (fut : Future)
    (self : _Gatherer) : outcome _Gatherer :=
  let elapsed := py_max 0 (now - started_at) in
  let '(failures, executed, runtime, cancelled) :=
    (_failures (_stats self), _executed (_stats self),
     _runtime (_stats self), _cancelled (_stats self)) in
  '(failures, executed, runtime, cancelled) ←
    (if Future_cancelled fut then
       Return (failures, executed, runtime, (cancelled + 1)%Z)
     else
       exc ← Future_exception fut;
       let failures := if exc is Some _ then (failures + 1)%Z else failures in
       Return (failures, (executed + 1)%Z, runtime + elapsed, cancelled));
  Return {| _stats := {| _failures := failures; _executed := executed;
                         _runtime := runtime; _cancelled := cancelled |};
            _start_before_submit := _start_before_submit self |}.

(** The done-callbacks of a sequence of handles, in the order in which
    they reach a terminal state: each is [(now, started_at, fut)]. *)
Fixpoint capture_all (folds : list (Q * Q * Future)) (self : _Gatherer)
  : outcome _Gatherer :=
  match folds with
  | [] => Return self
  | (now, started_at, fut) :: rest =>
      self' ← _capture_stats now started_at fut self;
      capture_all rest self'
  end.

(** ** Predicates of the statements *)

(** [runs == successes + failures] *)
Definition balanced (m : Metrics) : Prop := (runs m = successes m + failures m)%Z.

(** An entry of [_callables] as [__init__] and [add] accept it: the
    three attributes are there and [_is_periodic] is true. *)
Definition registered (c : callback * string * pyargs * pyargs) : Prop :=
  _is_periodic c.1.1.1 = Some true ∧
  is_Some (_periodic_spacing c.1.1.1) ∧
  is_Some (_periodic_run_immediately c.1.1.1).

(** The callable at an index asks to run immediately. *)
Definition immediate_at (self : PeriodicWorker) (i : nat) : Prop :=
  ∃ c, _callables self !! i = Some c ∧ _periodic_run_immediately c.1.1.1 = Some true.

(** The condition on one event of a run in which every completion
    callback returned (it pushed the next deadline) and [reset] was called
    with no future pending. *)
Definition quiet_step (ev : event) (self : PeriodicWorker) : bool :=
  match ev with
  | EvDone _ _ => returned (fst (exec_event ev self))
  | EvReset => is_empty (in_flight self)
  | _ => true
  end.

Fixpoint quiet (evs : list event) (self : PeriodicWorker) : bool :=
  match evs with
  | [] => true
  | ev :: evs' => quiet_step ev self && quiet evs' (snd (exec_event ev self))
  end.

(** How many entries of the schedule carry the index [i]. *)
Definition heap_entries (self : PeriodicWorker) (i : nat) : nat :=
  length (filter (fun e : entry => e.2 = i) (_schedule self)).

(** How many times the immediates queue holds the index [i]. *)
Definition immediate_entries (self : PeriodicWorker) (i : nat) : nat :=
  length (filter (fun j : nat => j = i) (_immediates self)).

(** The names of the table, as [sorted(BUILT_IN_STRATEGIES.keys())]. *)
Definition strategy_names : list string :=
  [ "aligned_last_finished"; "aligned_last_finished_jitter";
    "last_finished"; "last_finished_jitter";
    "last_started"; "last_started_jitter" ]%string.

(** The table that the class body builds. *)
Definition strategy_table : gmap string (strategy_func * (callback → Q → outcome Q)) :=
  list_to_map
    [ ("last_started", (_last_started_strategy, _now_plus_periodicity));
      ("last_started_jitter",
         (_add_jitter_wrapper DEFAULT_JITTER _last_started_strategy, _now_plus_periodicity));
      ("last_finished", (_last_finished_strategy, _now_plus_periodicity));
      ("last_finished_jitter",
         (_add_jitter_wrapper DEFAULT_JITTER _last_finished_strategy, _now_plus_periodicity));
      ("aligned_last_finished",
         (_aligned_last_finished_strategy, _now_plus_periodicity));
      ("aligned_last_finished_jitter",
         (_add_jitter_wrapper DEFAULT_JITTER _aligned_last_finished_strategy,
          _now_plus_periodicity)) ]%string.

(** A watcher entry of [_watchers]: the watcher reads the dictionary the
    worker writes, and that dictionary is in the store [h]. *)
Definition watcher_ok (h : list Metrics) (lw : loc * Watcher) : Prop :=
  _metrics lw.2 = lw.1 ∧ (lw.1 < length h)%nat.

(** What holds of a worker whatever happens to it. *)
Definition well_formed (self : PeriodicWorker) : Prop :=
  Forall balanced (heap self) ∧
  Forall (watcher_ok (heap self)) (_watchers self) ∧
  Forall registered (_callables self) ∧
  _initial_schedule_strategy self = _now_plus_periodicity ∧
  length (_watchers self) = length (_callables self).

(** Every index is in exactly one of the schedule, the immediates and the
    pending futures, and the immediates are callables that ask for it. *)
Definition accounted (self : PeriodicWorker) : Prop :=
  map snd (_schedule self) ++ _immediates self ++ map sub_index (in_flight self)
    ≡ₚ seq 0 (length (_callables self)) ∧
  Forall (immediate_at self) (_immediates self).

(** ** Workers of the tests *)

(** The [now_func] of the strategy tests: the readings listed, in order,
    then [last_now] for ever. *)
Definition fake_clock (nows : list Q) (last_now : Q) (n : nat) : Q :=
  nth n nows last_now.

(** [@periodics.periodic(2, run_immediately=False) def slow_periodic] *)
Definition slow_periodic : callback := decorated "slow_periodic" 2 false true.

(** [every_one_sec], and a callable that asks to run immediately. *)
Definition every_one_sec : callback := decorated "every_one_sec" 1 false true.
Definition activated_periodic : callback :=
  decorated "activated_periodic" (1 # 10) true true.

(** A clock that reads 0, 1, 2, ... *)
Definition counting_clock (n : nat) : Q := inject_Z (Z.of_nat n).

(** A run of a worker of two callables: the immediate one is submitted
    and succeeds, the scheduled one is submitted and raises, a third
    callable is added, and the worker is stopped. *)
Definition two_callables : list (callback * option pyargs * option pyargs) :=
  [(every_one_sec, None, None); (activated_periodic, None, None)].

Definition sample_run : list event :=
  [EvStartBegin false; EvImmediates; EvDone 0 false; EvScheduled; EvDone 0 true;
   EvAdd slow_periodic [] []; EvStop; EvStartFinally].

(** The worker that a construction returned, and the state in which a
    call of [start] returned. *)
Definition worker_of (o : outcome PeriodicWorker) : PeriodicWorker :=
  match o with
  | Return w => w
  | Raise _ => fresh SynchronousExecutor (fun _ => 0)
  end.

Definition state_of (o : option (outcome unit * PeriodicWorker)) : PeriodicWorker :=
  match o with
  | Some (_, s) => s
  | None => fresh SynchronousExecutor (fun _ => 0)
  end.

Definition sample_worker : PeriodicWorker :=
  worker_of (new_PeriodicWorker two_callables SynchronousExecutor "last_finished"
               counting_clock).

(** The worker of the strategy tests, and its state after the run of the
    test: one turn of the loop in which the callable is submitted and
    completes, and a turn in which [stop] arrives. *)
Definition test_worker (schedule_strategy : string) (nows : list Q) (last_now : Q)
  : PeriodicWorker :=
  worker_of (new_PeriodicWorker [(slow_periodic, None, None)] SynchronousExecutor
               schedule_strategy (fake_clock nows last_now)).

Definition test_run : list (list event * list event) :=
  [([], [EvDone 0 false]); ([], [EvStop])].

Definition test_stopped (schedule_strategy : string) (nows : list Q) (last_now : Q)
  : PeriodicWorker :=
  state_of (start false test_run [] (test_worker schedule_strategy nows last_now)).

(** ** Workers with a strategy without jitter *)






(** ** Creation by introspection *)







(** ** The summary at the end of [start] *)

(** A record written by [self._log.debug] in [_on_finish]. *)
Inductive log_record : Type :=
| LogStopped (index : nat) (cb_name : string)
| LogPeriodicity (spacing : Q)
| LogRuns (n : Z)
| LogFailures (n : Z)
| LogSuccesses (n : Z)
| LogAverageElapsed (q : Q)
| LogAverageElapsedWaiting (q : Q).

(** [try: body except ZeroDivisionError: handler] *)
Definition except_ZeroDivisionError {A} (body handler : M A) : M A :=
  fun self =>
    match body self with
    | (Raise ZeroDivisionError, self') => handler self'
    | r => r
    end.

(** The loop of [_on_finish] over [enumerate(self.iter_watchers())]; [log]
    is what was written so far. *)
Fixpoint _on_finish_loop (items : list (nat * Watcher)) (log : list log_record)
  : M (list log_record) :=
  match items with
  | [] => mret log
  | (index, watcher) :: rest =>
      '(cb, cb_name, _args, _kwargs) ← callable_at index;
      let log := log ++ [LogStopped index cb_name] in
      spacing ← lift (get_periodic_spacing cb);
      let log := log ++ [LogPeriodicity spacing] in
      n ← Watcher_runs watcher;
      let log := log ++ [LogRuns n] in
      n ← Watcher_failures watcher;
      let log := log ++ [LogFailures n] in
      n ← Watcher_successes watcher;
      let log := log ++ [LogSuccesses n] in
      log ← except_ZeroDivisionError
               (a ← Watcher_average_elapsed watcher;
                let log := log ++ [LogAverageElapsed a] in
                except_ZeroDivisionError
                  (b ← Watcher_average_elapsed_waiting watcher;
                   mret (log ++ [LogAverageElapsedWaiting b]))
                  (mret log))
               (mret log);
      _on_finish_loop rest log
  end.

(** [_on_finish]; [debug_enabled] is [self._log.isEnabledFor(logging.DEBUG)]. *)
Definition _on_finish (debug_enabled : bool) : M (list log_record) :=
  if negb debug_enabled then mret []
  else
    self ← get;
    _on_finish_loop (enumerate (iter_watchers self)) [].

(** ** The synchronous executor ([_futures.py]) *)

(** [_WorkItem.run]: [cancelled] tells whether the future was cancelled
    before the item ran ([set_running_or_notify_cancel] is false), [call] is
    what calling the function of the item gives. *)
Definition _WorkItem_run (cancelled : bool) (call : outcome string) : Future :=
  if cancelled then CANCELLED
  else FINISHED (match call with
                 | Return _ => None
                 | Raise e => Some e
                 end).

(** [_Gatherer.submit] when the underlying submit returns a handle that is
    already terminal, so that [add_done_callback] calls [_capture_stats] at
    once.  The [n]-th call of [_utils.now()] returns [now n]; [ticks] counts
    the calls made. *)
Definition _Gatherer_submit (now : nat → Q) (fut : Future) (self : _Gatherer)
    (ticks : nat) : outcome (Future * _Gatherer * nat) :=
  let started_at := now ticks in
  self' ← _capture_stats (now (S ticks)) started_at fut self;
  Return (fut, self', S (S ticks)).

Record SynchronousExecutorState : Type := {
  _shutoff : bool;
  _gatherer : _Gatherer;
  utils_ticks : nat
}.

(** [SynchronousExecutor(green=...)]; [eventlet_available] is
    [_utils.EVENTLET_AVAILABLE]. *)
Definition new_SynchronousExecutor (eventlet_available green : bool)
  : outcome SynchronousExecutorState :=
  if green && negb eventlet_available then
    Raise (RuntimeError "Eventlet is needed to use a green synchronous executor")
  else
    Return {| _shutoff := false; _gatherer := new_Gatherer true; utils_ticks := 0 |}.

Definition alive (self : SynchronousExecutorState) : bool := negb (_shutoff self).

Definition shutdown (self : SynchronousExecutorState) : SynchronousExecutorState :=
  {| _shutoff := true; _gatherer := _gatherer self; utils_ticks := utils_ticks self |}.

Definition restart (self : SynchronousExecutorState) : SynchronousExecutorState :=
  if _shutoff self then
    {| _shutoff := false; _gatherer := clear (_gatherer self);
       utils_ticks := utils_ticks self |}
  else self.

(** [SynchronousExecutor._submit]: the work item runs on the caller. *)
Definition _submit (call : outcome string) : Future := _WorkItem_run false call.

(** [SynchronousExecutor.submit(fn, ...)] *)
Definition SynchronousExecutor_submit (now : nat → Q) (call : outcome string)
    (self : SynchronousExecutorState)
  : outcome Future * SynchronousExecutorState :=
  if _shutoff self then
    (Raise (RuntimeError "Can not schedule new futures after being shutdown"), self)
  else
    match _Gatherer_submit now (_submit call) (_gatherer self) (utils_ticks self) with
    | Return (fut, g, t) =>
        (Return fut, {| _shutoff := _shutoff self; _gatherer := g; utils_ticks := t |})
    | Raise e => (Raise e, self)
    end.

(** What is done with a synchronous executor. *)
Inductive executor_op : Type :=
| OpSubmit (call : outcome string)
| OpShutdown
| OpRestart.

Definition exec_op (now : nat → Q) (op : executor_op) (self : SynchronousExecutorState)
  : SynchronousExecutorState :=
  match op with
  | OpSubmit call => snd (SynchronousExecutor_submit now call self)
  | OpShutdown => shutdown self
  | OpRestart => restart self
  end.

Definition exec_ops (now : nat → Q) (ops : list executor_op)
    (self : SynchronousExecutorState) : SynchronousExecutorState :=
  foldl (fun s op => exec_op now op s) self ops.

(** The submissions that the executor accepted since it was last
    restarted from a shutdown, and those of them whose call raised. *)
Fixpoint accepted (ops : list executor_op) (shutoff : bool) (n failed : Z) : Z * Z :=
  match ops with
  | [] => (n, failed)
  | OpSubmit call :: rest =>
      if shutoff then accepted rest shutoff n failed
      else accepted rest shutoff (n + 1)%Z
             (if returned call then failed else (failed + 1)%Z)
  | OpShutdown :: rest => accepted rest true n failed
  | OpRestart :: rest =>
      if shutoff then accepted rest false 0%Z 0%Z else accepted rest shutoff n failed
  end.

(** ** Indices *)

(** Every index that the schedule, the immediates or a pending future
    holds is the index of a registered callable, and a pending future holds
    the callable of its index. *)
Definition indexed (self : PeriodicWorker) : Prop :=
  Forall (fun e : entry => (e.2 < length (_callables self))%nat) (_schedule self) ∧
  Forall (fun i : nat => (i < length (_callables self))%nat) (_immediates self) ∧
  Forall (fun sub : submission =>
            ∃ c, _callables self !! sub_index sub = Some c ∧ sub_cb sub = c.1.1.1)
         (in_flight self).



(** The dictionaries of the store are those of the watchers, in order:
    each callable has a dictionary of its own. *)
Definition dense (self : PeriodicWorker) : Prop :=
  map fst (_watchers self) = seq 0 (length (heap self)).

(** ** What [_build] makes of one callable *)

(** The entry that [_build] pushes for the callable at an index, when the
    clock read [now]: none for a callable that runs immediately. *)
Definition first_deadline (now : Q)
    (ic : nat * (callback * string * pyargs * pyargs)) : option entry :=
  match _periodic_run_immediately ic.2.1.1.1, _periodic_spacing ic.2.1.1.1 with
  | Some false, Some how_often => Some (how_often + now, ic.1)
  | _, _ => None
  end.

(** The index that [_build] appends to the immediates. *)
Definition first_immediate (ic : nat * (callback * string * pyargs * pyargs))
  : option nat :=
  match _periodic_run_immediately ic.2.1.1.1 with
  | Some true => Some ic.1
  | _ => None
  end.

(** The indices of the callables that [_on_finish] reported, in order. *)
Definition reported (log : list log_record) : list nat :=
  omap (fun r => match r with LogStopped index _ => Some index | _ => None end) log.

(** * Properties *)

(** ** Arithmetic of the strategies *)








(** The test of the aligned strategy, evaluated: the deadline is 6. *)
Example aligned_last_finished_5_2 :
  call_positional4 _aligned_last_finished_strategy
    (decorated "slow_periodic" 2 false true) 2 5 0%nat = Return 6.
Proof. reflexivity. Qed.

(** ** Executor statistics *)

Lemma py_max_Qmax (a b : Q) : py_max a b == Qmax a b.
Proof.
  unfold py_max. destruct (Qlt_le_dec a b) as [H|H].
  - symmetry. apply Q.max_r. lra.
  - symmetry. apply Q.max_l. exact H.
Qed.

Lemma capture_all_counts (folds : list (Q * Q * Future)) (g : _Gatherer) :
  ∃ g', capture_all folds g = Return g' ∧
        (_executed (_stats g') + _cancelled (_stats g')
         = _executed (_stats g) + _cancelled (_stats g) + Z.of_nat (length folds))%Z.
Proof.
  revert g. induction folds as [|[[now started_at] fut] rest IH]; intros g.
  - exists g. split; [reflexivity|]. cbn. lia.
  - cbn [capture_all]. destruct fut as [|exc].
    + cbn. edestruct IH as (g' & -> & Hc). exists g'. split; [reflexivity|].
      cbn in Hc. rewrite Hc. cbn [length]. lia.
    + cbn. edestruct IH as (g' & -> & Hc). exists g'. split; [reflexivity|].
      cbn in Hc. rewrite Hc. cbn [length]. lia.
Qed.

(** C3: one fold of [_capture_stats] on a cancelled handle adds 1 to
    [cancelled] and leaves the rest; on a handle that ran it adds 1 to
    [executed], 1 to [failures] iff the handle holds an exception, and
    [max(0, now - started_at)] to [runtime].  After any sequence of folds,
    [executed + cancelled] has grown by the number of handles folded, so
    from a new gatherer it is that number. *)
Theorem capture_stats_fold :
  (∀ now started_at g,
     _capture_stats now started_at CANCELLED g =
     Return {| _stats := {| _failures := _failures (_stats g);
                            _executed := _executed (_stats g);
                            _runtime := _runtime (_stats g);
                            _cancelled := _cancelled (_stats g) + 1 |};
               _start_before_submit := _start_before_submit g |}) ∧
  (∀ now started_at exc g,
     _capture_stats now started_at (FINISHED exc) g =
     Return {| _stats := {| _failures := if exc is Some _
                                         then (_failures (_stats g) + 1)%Z
                                         else _failures (_stats g);
                            _executed := _executed (_stats g) + 1;
                            _runtime := _runtime (_stats g) + py_max 0 (now - started_at);
                            _cancelled := _cancelled (_stats g) |};
               _start_before_submit := _start_before_submit g |}) ∧
  (∀ d, py_max 0 d == Qmax 0 d) ∧
  (∀ folds g, ∃ g', capture_all folds g = Return g' ∧
     (_executed (statistics g') + _cancelled (statistics g')
      = _executed (statistics g) + _cancelled (statistics g)
        + Z.of_nat (length folds))%Z) ∧
  (∀ folds b, ∃ g', capture_all folds (new_Gatherer b) = Return g' ∧
     (_executed (statistics g') + _cancelled (statistics g')
      = Z.of_nat (length folds))%Z).
Proof.
  split; [reflexivity|]. split; [intros; destruct exc; reflexivity|].
  split; [intros; apply py_max_Qmax|]. split.
  - intros folds g. apply capture_all_counts.
  - intros folds b. destruct (capture_all_counts folds (new_Gatherer b)) as (g' & E & Hc).
    exists g'. split; [exact E|]. unfold statistics. rewrite Hc. cbn. lia.
Qed.

(** ** Average accessors *)

Lemma py_div_inject_Z (a : Q) (n : Z) :
  py_div a (inject_Z n) =
  if decide (n = 0%Z) then Raise ZeroDivisionError else Return (a / inject_Z n).
Proof.
  unfold py_div. destruct (Qeq_dec (inject_Z n) 0) as [E|E]; destruct (decide (n = 0%Z)) as [D|D];
    try reflexivity.
  - exfalso. apply D. unfold Qeq in E. cbn in E. lia.
  - exfalso. apply E. subst n. reflexivity.
Qed.

(** C10: the three averages are plain divisions: [ZeroDivisionError]
    when the divisor ([executed], [runs]) is 0 and the quotient otherwise,
    and the watcher's two leave the store and the worker as they were. *)
Theorem average_accessors (st : ExecutorStatistics) (self : PeriodicWorker)
    (w : Watcher) (m : Metrics) :
  heap self !! _metrics w = Some m →
  average_runtime st =
    (if decide (_executed st = 0%Z) then Raise ZeroDivisionError
     else Return (_runtime st / inject_Z (_executed st))) ∧
  Watcher_average_elapsed w self =
    (if decide (runs m = 0%Z) then Raise ZeroDivisionError
     else Return (elapsed m / inject_Z (runs m)), self) ∧
  Watcher_average_elapsed_waiting w self =
    (if decide (runs m = 0%Z) then Raise ZeroDivisionError
     else Return (elapsed_waiting m / inject_Z (runs m)), self).
Proof.
  intros Hm. split; [apply py_div_inject_Z|].
  unfold Watcher_average_elapsed, Watcher_average_elapsed_waiting.
  cbv [mbind M_bind read_metrics lift]. rewrite Hm.
  rewrite !py_div_inject_Z. split; reflexivity.
Qed.

Lemma average_accessors_witness :
  let self := set_heap [_INITIAL_METRICS] (fresh SynchronousExecutor (fun _ => 0)) in
  average_runtime new_ExecutorStatistics = Raise ZeroDivisionError ∧
  Watcher_average_elapsed {| _metrics := 0%nat |} self = (Raise ZeroDivisionError, self) ∧
  Watcher_average_elapsed_waiting {| _metrics := 0%nat |} self
    = (Raise ZeroDivisionError, self).
Proof.
  intros self.
  apply (average_accessors new_ExecutorStatistics self {| _metrics := 0%nat |}
           _INITIAL_METRICS).
  reflexivity.
Defined.

(** ** add of a disabled callable *)

Lemma check_attrs_empty (cb : callback) :
  is_empty (_check_attrs cb) = true ↔
  is_Some (_is_periodic cb) ∧ is_Some (_periodic_spacing cb) ∧
  is_Some (_periodic_run_immediately cb).
Proof.
  unfold _check_attrs, _REQUIRED_ATTRS, hasattr.
  destruct (_is_periodic cb) as [a|], (_periodic_spacing cb) as [b|],
    (_periodic_run_immediately cb) as [c|];
    (split;
     [ intros H; vm_compute in H;
       first [discriminate H | repeat split; eexists; reflexivity]
     | intros (H1 & H2 & H3);
       first [ reflexivity
             | destruct H1 as [? H1]; discriminate H1
             | destruct H2 as [? H2]; discriminate H2
             | destruct H3 as [? H3]; discriminate H3 ] ]).
Qed.

(** C9: [add] of a callable that carries the three attributes and whose
    [_is_periodic] is false returns [None] and leaves the whole state as it
    was: the callables, the watchers, the immediates and the schedule, and so
    [len(worker)]. *)
Theorem add_disabled (self : PeriodicWorker) (cb : callback) (args kwargs : pyargs) :
  cb_callable cb = true → is_empty (_check_attrs cb) = true →
  _is_periodic cb = Some false →
  add cb args kwargs self = (Return None, self) ∧
  __len__ (snd (add cb args kwargs self)) = __len__ self.
Proof.
  intros Hc Ha Hp.
  assert (E : add cb args kwargs self = (Return None, self)).
  { unfold add. rewrite Hc, Ha. cbn.
    unfold get_is_periodic, getattr. rewrite Hp. reflexivity. }
  rewrite E. split; reflexivity.
Qed.

Lemma add_disabled_witness :
  ∃ w, new_PeriodicWorker [] SynchronousExecutor "last_started" (fun _ => 0) = Return w ∧
       __len__ w = 0%nat ∧
       (add (decorated "no_add_me" (1 # 2) false false) [] [] w = (Return None, w) ∧
        __len__ (snd (add (decorated "no_add_me" (1 # 2) false false) [] [] w))
        = __len__ w).
Proof.
  eexists. split; [reflexivity|]. split; [reflexivity|].
  apply (add_disabled _ (decorated "no_add_me" (1 # 2) false false) [] []);
    reflexivity.
Defined.

(** ** Reasoning about the monad *)

Ltac munfold :=
  cbv [mbind mret M_bind M_ret outcome_bind modify get raise lift call_now_func
       new_metrics read_metrics update_metrics watcher_at callable_at submit stop
       start_begin start_finally run_callback _on_failure].

Ltac psimpl :=
  cbn [heap ticks in_flight _watchers _callables _schedule _immediates _tombstone _dead
       _active _schedule_strategy _initial_schedule_strategy _executor_factory _now_func
       set_heap set_ticks set_in_flight set_watchers set_callables set_schedule
       set_immediates set_tombstone set_dead set_active set_strategies fst snd] in *.

Lemma set_ticks_id s : set_ticks (ticks s) s = s.
Proof. destruct s; reflexivity. Qed.

Lemma set_heap_id s : set_heap (heap s) s = s.
Proof. destruct s; reflexivity. Qed.

Lemma enumerate_from_fst {A} (n : nat) (l : list A) :
  map fst (enumerate_from n l) = seq n (length l).
Proof.
  revert n. induction l as [|x l IH]; intros n; cbn; [reflexivity|].
  now rewrite IH.
Qed.

Lemma enumerate_from_elem {A} (n : nat) (l : list A) (i : nat) (c : A) :
  (i, c) ∈ enumerate_from n l → ∃ j, i = (n + j)%nat ∧ l !! j = Some c.
Proof.
  revert n. induction l as [|x l IH]; intros n; cbn; intros H.
  - apply elem_of_nil in H. destruct H.
  - apply elem_of_cons in H as [H|H].
    + injection H as -> ->. exists 0%nat. split; [lia|reflexivity].
    + apply IH in H as (j & -> & Hj). exists (S j). split; [lia|exact Hj].
Qed.

Lemma registered_attrs cb nm a k :
  registered (cb, nm, a, k) →
  ∃ h b, _periodic_spacing cb = Some h ∧ _periodic_run_immediately cb = Some b.
Proof. intros (_ & [h Hh] & [b Hb]). cbn in *. eauto. Qed.

Lemma build_loop_ok items :
  Forall (fun ic : nat * (callback * string * pyargs * pyargs) => registered ic.2) items →
  ∀ sched now imm s,
  ∃ imm' sched' t',
    _build_loop _now_plus_periodicity items sched now imm s
      = (Return (imm', sched'), set_ticks t' s) ∧
    map snd sched' ++ imm' ≡ₚ (map snd sched ++ imm) ++ map fst items ∧
    (∀ i, i ∈ imm' → i ∈ imm ∨
       ∃ c, (i, c) ∈ items ∧ _periodic_run_immediately c.1.1.1 = Some true).
Proof.
  induction 1 as [|[index [[[cb nm] a] k]] items Hreg _ IH]; intros sched now imm s.
  - exists imm, sched, (ticks s). rewrite set_ticks_id. split; [reflexivity|].
    split; [cbn; now rewrite app_nil_r|]. intros i Hi. now left.
  - apply registered_attrs in Hreg as (h & b & Hh & Hb).
    cbn [_build_loop]. munfold.
    unfold get_periodic_run_immediately, getattr. rewrite Hb.
    destruct b.
    + destruct (IH sched now (imm ++ [index]) s) as (imm' & sched' & t' & E & Hp & Hi).
      exists imm', sched', t'. split; [exact E|]. split.
      * rewrite Hp. cbn. solve_Permutation.
      * intros i Hin. apply Hi in Hin as [Hin|(c & Hc & Hr)].
        -- apply elem_of_app in Hin as [Hin|Hin]; [now left|].
           apply list_elem_of_singleton in Hin as ->. right.
           eexists. split; [apply list_elem_of_here|]. exact Hb.
        -- right. exists c. split; [now apply list_elem_of_further|exact Hr].
    + unfold _now_plus_periodicity, get_periodic_spacing, getattr. rewrite Hh.
      destruct now as [t|]; munfold.
      * destruct (IH (heappush sched (h + t, index)) (Some t) imm s)
          as (imm' & sched' & t' & E & Hp & Hi).
        exists imm', sched', t'. split; [exact E|]. split.
        -- rewrite Hp. unfold heappush. rewrite map_app. cbn. solve_Permutation.
        -- intros i Hin. apply Hi in Hin as [Hin|(c & Hc & Hr)]; [now left|].
           right. exists c. split; [now apply list_elem_of_further|exact Hr].
      * destruct (IH (heappush sched (h + _now_func s (ticks s), index))
                     (Some (_now_func s (ticks s))) imm (set_ticks (S (ticks s)) s))
          as (imm' & sched' & t' & E & Hp & Hi).
        exists imm', sched', t'. split; [exact E|]. split.
        -- rewrite Hp. unfold heappush. rewrite map_app. cbn. solve_Permutation.
        -- intros i Hin. apply Hi in Hin as [Hin|(c & Hc & Hr)]; [now left|].
           right. exists c. split; [now apply list_elem_of_further|exact Hr].
Qed.

Lemma build_ok callables s :
  Forall registered callables →
  ∃ imm sched t',
    _build callables _now_plus_periodicity s = (Return (imm, sched), set_ticks t' s) ∧
    map snd sched ++ imm ≡ₚ seq 0 (length callables) ∧
    (∀ i, i ∈ imm →
       ∃ c, callables !! i = Some c ∧ _periodic_run_immediately c.1.1.1 = Some true).
Proof.
  intros Hreg. unfold _build, enumerate.
  destruct (build_loop_ok (enumerate_from 0 callables)) with (sched := @nil entry)
    (now := @None Q) (imm := @nil nat) (s := s) as (imm & sched & t' & E & Hp & Hi).
  { apply Forall_forall. intros [i c] Hin. apply enumerate_from_elem in Hin as (j & _ & Hj).
    rewrite Forall_forall in Hreg. apply Hreg. eapply list_elem_of_lookup_2. exact Hj. }
  exists imm, sched, t'. split; [exact E|]. split.
  - rewrite Hp. cbn. now rewrite enumerate_from_fst.
  - intros i Hin. apply Hi in Hin as [Hin|(c & Hc & Hr)].
    + apply elem_of_nil in Hin. destruct Hin.
    + apply enumerate_from_elem in Hc as (j & -> & Hj). exists c. split; [exact Hj|exact Hr].
Qed.

(** ** Registration *)

Lemma parts_append (h : list Metrics) ws cs c :
  Forall balanced h → Forall (watcher_ok h) ws → Forall registered cs → registered c →
  length ws = length cs →
  Forall balanced (h ++ [_INITIAL_METRICS]) ∧
  Forall (watcher_ok (h ++ [_INITIAL_METRICS]))
         (ws ++ [(length h, {| _metrics := length h |})]) ∧
  Forall registered (cs ++ [c]) ∧
  length (ws ++ [(length h, {| _metrics := length h |})]) = length (cs ++ [c]).
Proof.
  intros Hb Hw Hc Hr Hlen. split; [|split; [|split]].
  - apply Forall_app. split; [exact Hb|]. constructor; [reflexivity|constructor].
  - apply Forall_app. split.
    + eapply Forall_impl; [exact Hw|]. intros [l w] [H1 H2]. split; [exact H1|].
      rewrite length_app. cbn in *. lia.
    + constructor; [|constructor]. split; [reflexivity|]. rewrite length_app. cbn. lia.
  - apply Forall_app. split; [exact Hc|]. constructor; [exact Hr|constructor].
  - rewrite !length_app. cbn. lia.
Qed.

(** What the validation shared by [__init__] and [add] establishes. *)
Lemma validated (cb : callback) :
  is_empty (_check_attrs cb) = true →
  ∃ e h b, _is_periodic cb = Some e ∧ _periodic_spacing cb = Some h ∧
           _periodic_run_immediately cb = Some b.
Proof.
  intros Ha. apply check_attrs_empty in Ha as ([e He] & [h Hh] & [b Hb]). eauto 7.
Qed.

Lemma init_callables_effect callables :
  ∀ s, well_formed s →
  ∃ r s', init_callables callables s = (r, s') ∧ well_formed s' ∧
          _schedule s' = _schedule s ∧ _immediates s' = _immediates s ∧
          in_flight s' = in_flight s ∧ ticks s' = ticks s ∧
          (r = Return tt ∨ ∃ msg, r = Raise (ValueError msg)).
Proof.
  induction callables as [|[[cb args] kwargs] rest IH]; intros s Hwf.
  - exists (Return tt), s. cbn. repeat split; try apply Hwf; auto.
  - cbn [init_callables].
    destruct (cb_callable cb) eqn:Hc; cbn [negb];
      [|exists (Raise (ValueError "Periodic callback must be callable")), s;
        repeat split; try apply Hwf; eauto].
    destruct (is_empty (_check_attrs cb)) eqn:Ha; cbn [negb];
      [|exists (Raise (ValueError "Periodic callback missing required attributes")), s;
        repeat split; try apply Hwf; eauto].
    destruct (validated cb Ha) as (e & h & b & He & Hh & Hb).
    munfold. unfold get_is_periodic, getattr. rewrite He.
    destruct e.
    + destruct Hwf as (H1 & H2 & H3 & H4 & H5).
      destruct (parts_append (heap s) (_watchers s) (_callables s)
                  (cb, cb_name cb, default _NO_OP_ARGS args, default _NO_OP_KWARGS kwargs)
                  H1 H2 H3) as (P1 & P2 & P3 & P4); [|exact H5|].
      { repeat split; cbn; eauto. }
      psimpl.
      match goal with |- context [init_callables rest ?s1] =>
        destruct (IH s1) as (r & s' & E & Hwf' & F) end.
      { repeat split; psimpl; assumption. }
      rewrite E. exists r, s'. split; [destruct r; reflexivity|]. split; [exact Hwf'|].
      psimpl. exact F.
    + destruct (IH s Hwf) as (r & s' & E & Hwf' & F).
      rewrite E. exists r, s'. split; [destruct r; reflexivity|]. split; [exact Hwf'|exact F].
Qed.

(** ** The table of strategies *)

Lemma built_in_strategies : BUILT_IN_STRATEGIES = Return strategy_table.
Proof. reflexivity. Qed.

Lemma strategy_table_Some name post initial :
  strategy_table !! name = Some (post, initial) →
  name ∈ strategy_names ∧ initial = _now_plus_periodicity.
Proof.
  unfold strategy_table, strategy_names.
  rewrite !list_to_map_cons, list_to_map_nil. cbn [fst snd].
  repeat (rewrite lookup_insert; case_decide;
          [intros [= <- <-]; subst name; split; [set_solver|reflexivity]|]).
  rewrite lookup_empty. discriminate.
Qed.

Lemma strategy_table_None name :
  name ∉ strategy_names → strategy_table !! name = None.
Proof.
  unfold strategy_table, strategy_names. intros Hn.
  rewrite !list_to_map_cons, list_to_map_nil. cbn [fst snd].
  repeat (rewrite lookup_insert_ne; [|intros <-; apply Hn; set_solver]).
  apply lookup_empty.
Qed.

Lemma strategy_table_posts :
  strategy_table !! "last_started"%string
    = Some (_last_started_strategy, _now_plus_periodicity) ∧
  strategy_table !! "last_finished"%string
    = Some (_last_finished_strategy, _now_plus_periodicity) ∧
  strategy_table !! "aligned_last_finished"%string
    = Some (_aligned_last_finished_strategy, _now_plus_periodicity) ∧
  strategy_table !! "last_started_jitter"%string
    = Some (_add_jitter_wrapper DEFAULT_JITTER _last_started_strategy,
            _now_plus_periodicity) ∧
  strategy_table !! "last_finished_jitter"%string
    = Some (_add_jitter_wrapper DEFAULT_JITTER _last_finished_strategy,
            _now_plus_periodicity) ∧
  strategy_table !! "aligned_last_finished_jitter"%string
    = Some (_add_jitter_wrapper DEFAULT_JITTER _aligned_last_finished_strategy,
            _now_plus_periodicity).
Proof. repeat split. Qed.

Lemma strategy_table_names name :
  name ∈ strategy_names → ∃ post, strategy_table !! name = Some (post, _now_plus_periodicity).
Proof.
  unfold strategy_names. intros H.
  repeat (apply elem_of_cons in H as [->|H]; [eexists; reflexivity|]).
  apply elem_of_nil in H. destruct H.
Qed.

(** ** Construction *)

Lemma fresh_well_formed ex now : well_formed (fresh ex now).
Proof. repeat split; cbn; constructor. Qed.

Lemma init_effect callables name s :
  well_formed s →
  ∃ r s', __init__ callables name s = (r, s') ∧
    (((∃ msg, r = Raise (ValueError msg)) ∧
      _schedule s' = _schedule s ∧ _immediates s' = _immediates s ∧
      ticks s' = ticks s ∧ in_flight s' = in_flight s)
     ∨
     (r = Return tt ∧ well_formed s' ∧ in_flight s' = in_flight s ∧
      (in_flight s = [] → accounted s') ∧
      ∃ post, strategy_table !! name = Some (post, _now_plus_periodicity) ∧
              _schedule_strategy s' = post)).
Proof.
  intros Hwf. unfold __init__. munfold.
  destruct (init_callables_effect callables s Hwf)
    as (r & s1 & E & Hwf1 & F1 & F2 & F3 & F4 & Hr).
  rewrite E. destruct Hr as [->|[msg ->]];
    [|eexists _, _; split; [reflexivity|]; left; eauto 10].
  rewrite built_in_strategies.
  destruct (strategy_table !! name) as [[post initial]|] eqn:Hl;
    [|eexists _, _; split; [reflexivity|]; left; eauto 10].
  apply strategy_table_Some in Hl as Hn. destruct Hn as [Hn ->].
  psimpl.
  destruct Hwf1 as (H1 & H2 & H3 & H4 & H5).
  match goal with |- context [_build ?cs _ ?s2] =>
    destruct (build_ok cs s2 H3) as (imm & sched & t' & Eb & Hp & Hi) end.
  rewrite Eb. eexists _, _; split; [reflexivity|]. right.
  split; [reflexivity|]. split; [repeat split; psimpl; assumption|].
  split; [psimpl; exact F3|]. split.
  - intros Hf. split; psimpl.
    + rewrite F3, Hf. cbn. rewrite app_nil_r. exact Hp.
    + apply Forall_forall. intros i Hin. apply Hi in Hin. exact Hin.
  - exists post. split; [reflexivity|]. reflexivity.
Qed.

Lemma new_worker_spec callables ex name now :
  match new_PeriodicWorker callables ex name now with
  | Return w =>
      well_formed w ∧ accounted w ∧ in_flight w = [] ∧
      ∃ post, strategy_table !! name = Some (post, _now_plus_periodicity) ∧
              _schedule_strategy w = post
  | Raise e => ∃ msg, e = ValueError msg
  end.
Proof.
  unfold new_PeriodicWorker.
  destruct (init_effect callables name (fresh ex now) (fresh_well_formed ex now))
    as (r & s' & E & [([msg ->] & _)|(-> & Hwf & Hf & Ha & Hp)]); rewrite E.
  - eauto.
  - split; [exact Hwf|]. split; [apply Ha; reflexivity|]. split; [rewrite Hf; reflexivity|].
    exact Hp.
Qed.

(** ** What each operation does to the state *)

Lemma add_effect cb a k s :
  well_formed s →
  ∃ r s', add cb a k s = (r, s') ∧
   ((s' = s ∧ (r = Return None ∨ returned r = false)) ∨
    ∃ h ri, registered (cb, cb_name cb, a, k) ∧ _periodic_spacing cb = Some h ∧
      _periodic_run_immediately cb = Some ri ∧
      r = Return (Some {| _metrics := length (heap s) |}) ∧
      s' = (if ri : bool
            then set_immediates (_immediates s ++ [length (_callables s)])
            else set_schedule (heappush (_schedule s)
                                 (h + _now_func s (ticks s), length (_callables s))))
             (set_watchers (_watchers s ++
                              [(length (heap s), {| _metrics := length (heap s) |})])
               (set_callables (_callables s ++ [(cb, cb_name cb, a, k)])
                 (set_heap (heap s ++ [_INITIAL_METRICS])
                    (set_ticks (S (ticks s)) s))))).
Proof.
  intros (_ & _ & _ & Hi & _). unfold add.
  destruct (cb_callable cb) eqn:Hc; cbn [negb];
    [|eexists _, _; split; [reflexivity|]; left; split; [reflexivity|right; reflexivity]].
  destruct (is_empty (_check_attrs cb)) eqn:Ha; cbn [negb];
    [|eexists _, _; split; [reflexivity|]; left; split; [reflexivity|right; reflexivity]].
  destruct (validated cb Ha) as (e & h & b & He & Hh & Hb).
  munfold. unfold get_is_periodic, get_periodic_run_immediately, getattr. rewrite He, Hb.
  destruct e; cbn [negb];
    [|eexists _, _; split; [reflexivity|]; left; split; [reflexivity|left; reflexivity]].
  psimpl.
  destruct b.
  - eexists _, _; split; [reflexivity|]. right. exists h, true.
    split; [repeat split; cbn; eauto|]. repeat split; assumption.
  - psimpl. rewrite Hi. unfold _now_plus_periodicity, get_periodic_spacing, getattr.
    rewrite Hh. munfold.
    eexists _, _; split; [reflexivity|]. right. exists h, false.
    split; [repeat split; cbn; eauto|]. repeat split; assumption.
Qed.

Lemma process_immediates_effect r s :
  _process_immediates r s =
  match _immediates s with
  | [] => (Return tt, s)
  | index :: rest =>
      match _callables s !! index with
      | Some (cb, nm, a, k) =>
          (Return tt,
           set_in_flight (in_flight s ++
             [{| sub_runner := r; sub_kind := IMMEDIATE; sub_cb := cb; sub_cb_name := nm;
                 sub_index := index; sub_submitted_at := _now_func s (ticks s) |}])
             (set_ticks (S (ticks s)) (set_immediates rest s)))
      | None => (Raise (IndexError "list index out of range"), set_immediates rest s)
      end
  end.
Proof.
  unfold _process_immediates. munfold.
  destruct (_immediates s) as [|index rest]; [reflexivity|]. psimpl.
  destruct (_callables s !! index) as [[[[cb nm] a] k]|]; reflexivity.
Qed.

Lemma process_scheduled_effect r s :
  _process_scheduled r s =
  if is_empty (_schedule s) && negb (_tombstone s) && is_empty (_immediates s)
  then (Return tt, s)
  else if _tombstone s then (Return tt, s)
  else if negb (is_empty (_immediates s)) then (Return tt, s)
  else
    match heappop (_schedule s) with
    | Raise e => (Raise e, set_ticks (S (ticks s)) s)
    | Return ((next_run, index), rest) =>
        if Qle_bool (next_run - _now_func s (ticks s)) 0 then
          match _callables s !! index with
          | Some (cb, nm, a, k) =>
              (Return tt,
               set_in_flight (in_flight s ++
                 [{| sub_runner := r; sub_kind := PERIODIC; sub_cb := cb;
                     sub_cb_name := nm; sub_index := index;
                     sub_submitted_at := _now_func s (ticks s) |}])
                 (set_schedule rest (set_ticks (S (ticks s)) s)))
          | None => (Raise (IndexError "list index out of range"),
                     set_schedule rest (set_ticks (S (ticks s)) s))
          end
        else
          (Return tt,
           set_schedule (heappush rest (next_run, index)) (set_ticks (S (ticks s)) s))
    end.
Proof.
  unfold _process_scheduled. munfold.
  destruct (is_empty (_schedule s) && negb (_tombstone s) && is_empty (_immediates s));
    [reflexivity|].
  destruct (_tombstone s); [reflexivity|].
  destruct (negb (is_empty (_immediates s))); [reflexivity|].
  psimpl.
  destruct (heappop (_schedule s)) as [[[next_run index] rest]|e]; [|reflexivity].
  psimpl.
  destruct (Qle_bool (next_run - _now_func s (ticks s)) 0); [|reflexivity].
  psimpl.
  destruct (_callables s !! index) as [[[[cb nm] a] k]|]; reflexivity.
Qed.

Lemma complete_effect k raised s :
  complete k raised s =
  match in_flight s !! k with
  | None => (Return tt, s)
  | Some sub =>
      _on_done (sub_kind sub) (sub_cb sub) (sub_cb_name sub) (sub_index sub)
        (sub_submitted_at sub)
        (Return (_now_func s (ticks s), _now_func s (S (ticks s)),
                 if raised
                 then Some {| retain := match sub_runner sub with
                                        | _run_callback_retain => true
                                        | _run_callback_no_retain => false
                                        end |}
                 else None))
        (set_ticks (S (S (ticks s))) (set_in_flight (delete k (in_flight s)) s))
  end.
Proof.
  unfold complete. munfold.
  destruct (in_flight s !! k) as [sub|]; reflexivity.
Qed.

Lemma pop_least_perm (x : entry) (h : list entry) m rest :
  pop_least x h = (m, rest) → x :: h ≡ₚ m :: rest.
Proof.
  revert x m rest. induction h as [|y h IH]; intros x m rest; cbn.
  - intros [= <- <-]. reflexivity.
  - destruct (pop_least y h) as [m' rest'] eqn:E. apply IH in E.
    destruct (entry_ltb m' x); intros [= <- <-].
    + rewrite E. apply perm_swap.
    + rewrite E. reflexivity.
Qed.

Lemma heappop_perm (h : list entry) e rest :
  heappop h = Return (e, rest) → h ≡ₚ e :: rest.
Proof.
  destruct h as [|x h]; cbn; [discriminate|].
  intros [= E]. now apply pop_least_perm.
Qed.

Lemma reset_metrics_effect ws :
  ∀ s, Forall (watcher_ok (heap s)) ws →
  ∃ h', reset_metrics ws s = (Return tt, set_heap h' s) ∧
        length h' = length (heap s) ∧
        (Forall balanced (heap s) → Forall balanced h') ∧
        (∀ l, (l ∈ map fst ws ∧ (l < length (heap s))%nat) ∨
              heap s !! l = Some _INITIAL_METRICS → h' !! l = Some _INITIAL_METRICS).
Proof.
  induction ws as [|[l w] ws IH]; intros s Hok.
  - exists (heap s). rewrite set_heap_id. split; [reflexivity|]. split; [reflexivity|].
    split; [auto|]. intros l [[H _]|H]; [|exact H]. apply elem_of_nil in H. destruct H.
  - apply Forall_cons in Hok as [[_ Hl] Hok]. cbn [fst snd] in Hl.
    cbn [reset_metrics]. munfold.
    destruct (heap s !! l) as [m|] eqn:Hm;
      [|apply lookup_ge_None in Hm; lia].
    psimpl.
    destruct (IH (set_heap (<[l := zero_all_keys m]> (heap s)) s)) as (h' & E & Hlen & Hb & Hz).
    { psimpl. eapply Forall_impl; [exact Hok|]. intros [l' w'] [H1 H2].
      split; [exact H1|]. rewrite length_insert. exact H2. }
    rewrite E. psimpl. exists h'. split; [reflexivity|].
    rewrite length_insert in Hlen. split; [exact Hlen|]. split.
    + intros HB. apply Hb. apply Forall_insert; [exact HB|reflexivity].
    + intros l' Hl'. apply Hz. rewrite length_insert.
      destruct (decide (l' = l)) as [->|Hne].
      * right. now rewrite list_lookup_insert_eq.
      * destruct Hl' as [[Hin Hlt]|Hin].
        -- left. split; [|exact Hlt]. cbn in Hin. apply elem_of_cons in Hin as [?|?]; [congruence|assumption].
        -- right. now rewrite list_lookup_insert_ne.
Qed.

Lemma reset_effect s :
  well_formed s →
  ∃ h' imm sched t',
    let cleared := set_heap h' (set_dead false (set_tombstone false s)) in
    reset s = (Return tt, set_schedule sched (set_immediates imm (set_ticks t' cleared))) ∧
    _build (_callables s) (_initial_schedule_strategy s) cleared
      = (Return (imm, sched), set_ticks t' cleared) ∧
    length h' = length (heap s) ∧ Forall balanced h' ∧
    (∀ lw, lw ∈ _watchers s → h' !! lw.1 = Some _INITIAL_METRICS) ∧
    map snd sched ++ imm ≡ₚ seq 0 (length (_callables s)) ∧
    (∀ i, i ∈ imm →
       ∃ c, _callables s !! i = Some c ∧ _periodic_run_immediately c.1.1.1 = Some true).
Proof.
  intros (H1 & H2 & H3 & H4 & H5). unfold reset. munfold. psimpl.
  destruct (reset_metrics_effect (_watchers s) (set_dead false (set_tombstone false s)))
    as (h' & E & Hlen & Hb & Hz); [exact H2|].
  rewrite E. psimpl. rewrite H4.
  destruct (build_ok (_callables s)
              (set_heap h' (set_dead false (set_tombstone false s))) H3)
    as (imm & sched & t' & Eb & Hp & Hi).
  rewrite Eb. exists h', imm, sched, t'. cbn zeta.
  split; [reflexivity|]. split; [exact Eb|]. split; [exact Hlen|].
  split; [apply Hb, H1|]. split; [|split; [exact Hp|exact Hi]].
  intros [l w] Hin. apply Hz. left. cbn [fst]. split.
  - apply list_elem_of_fmap. exists (l, w). split; [reflexivity|exact Hin].
  - rewrite Forall_forall in H2. apply (H2 _ Hin).
Qed.

Ltac on_done_case Hw Hm Hc l w m started_at finished_at :=
  eexists _, _; split; [reflexivity|]; right;
  eexists l, w, m, _, started_at, finished_at, _;
  split; [reflexivity|]; split; [first [reflexivity|exact Hw]|];
  split; [first [reflexivity|exact Hm]|];
  split; cycle 1;
  [ first [ right; eexists; split; [exact Hc|]; split; reflexivity
          | left; split; reflexivity ]
  | unfold balanced; cbn; lia ].

Lemma on_done_effect k cb name index sub fut s :
  ∃ r s', _on_done k cb name index sub fut s = (r, s') ∧
  ((returned r = false ∧ s' = s) ∨
   ∃ l w m m' started_at finished_at failure,
      fut = Return (started_at, finished_at, failure) ∧
      _watchers s !! index = Some (l, w) ∧ heap s !! l = Some m ∧
      (balanced m → balanced m') ∧
      ((returned r = false ∧ s' = set_heap (<[l := m']> (heap s)) s) ∨
       (∃ next_run,
         call_positional4 (_schedule_strategy s) cb started_at finished_at l
           = Return next_run ∧
         r = Return tt ∧
         s' = set_schedule (heappush (_schedule s) (next_run, index))
                (set_heap (<[l := m']> (heap s)) s)))).
Proof.
  unfold _on_done. munfold.
  destruct fut as [[[started_at finished_at] failure]|e];
    [|eexists _, _; split; [reflexivity|left; split; reflexivity]].
  destruct (_watchers s !! index) as [[l w]|] eqn:Hw;
    [|eexists _, _; split; [reflexivity|left; split; reflexivity]].
  destruct (heap s !! l) as [m|] eqn:Hm;
    [|eexists _, _; split; [reflexivity|left; split; reflexivity]].
  assert (Hl : (l < length (heap s))%nat) by (eapply lookup_lt_Some; eauto).
  destruct failure as [f|]; psimpl.
  - rewrite list_lookup_insert_eq by exact Hl.
    psimpl. rewrite !list_insert_insert_eq.
    unfold get_periodic_spacing, getattr.
    destruct (_periodic_spacing cb) as [h|].
    + psimpl. rewrite list_lookup_insert_eq by exact Hl. psimpl.
      rewrite !list_insert_insert_eq.
      rewrite list_lookup_insert_eq by exact Hl. psimpl.
      rewrite !list_insert_insert_eq.
      destruct (call_positional4 _ _ _ _ _) as [next_run|e] eqn:Hc;
        on_done_case Hw Hm Hc l w m started_at finished_at.
    + pose proof I as Hc. on_done_case Hw Hm Hc l w m started_at finished_at.
  - rewrite list_lookup_insert_eq by exact Hl.
    psimpl. rewrite !list_insert_insert_eq.
    rewrite list_lookup_insert_eq by exact Hl. psimpl.
    rewrite !list_insert_insert_eq.
    rewrite list_lookup_insert_eq by exact Hl. psimpl.
    rewrite !list_insert_insert_eq.
    destruct (call_positional4 _ _ _ _ _) as [next_run|e] eqn:Hc;
      on_done_case Hw Hm Hc l w m started_at finished_at.
Qed.

(** ** Invariants *)

Lemma well_formed_frame s s' :
  heap s' = heap s → _watchers s' = _watchers s → _callables s' = _callables s →
  _initial_schedule_strategy s' = _initial_schedule_strategy s →
  well_formed s → well_formed s'.
Proof. unfold well_formed. intros -> -> -> ->. auto. Qed.

Lemma well_formed_update s s' l m m' :
  heap s' = <[l := m']> (heap s) → _watchers s' = _watchers s →
  _callables s' = _callables s →
  _initial_schedule_strategy s' = _initial_schedule_strategy s →
  heap s !! l = Some m → (balanced m → balanced m') →
  well_formed s → well_formed s'.
Proof.
  unfold well_formed. intros -> -> -> -> Hm Hb (H1 & H2 & H3 & H4 & H5).
  split; [|split; [|auto]].
  - apply Forall_insert; [exact H1|]. apply Hb. eapply Forall_lookup_1; eauto.
  - eapply Forall_impl; [exact H2|]. intros lw [? ?]. split; [assumption|].
    now rewrite length_insert.
Qed.

Lemma on_done_well_formed k cb name index sub fut s :
  well_formed s → well_formed (snd (_on_done k cb name index sub fut s)).
Proof.
  intros Hwf.
  destruct (on_done_effect k cb name index sub fut s)
    as (r & s' & E & [[_ ->]|(l & w & m & m' & t0 & t1 & f & _ & _ & Hm & Hb &
                              [[_ ->]|(next_run & _ & _ & ->)])]);
    rewrite E; cbn [snd]; [exact Hwf| |];
    eapply (well_formed_update s _ l m m'); try reflexivity; eauto.
Qed.

Lemma exec_event_well_formed ev s :
  well_formed s → well_formed (snd (exec_event ev s)).
Proof.
  intros Hwf. destruct ev as [cb a k| | |k raised| | |allow_empty|]; cbn [exec_event].
  - munfold. destruct (add_effect cb a k s Hwf)
      as (r & s' & E & [[-> _]|(h & ri & Hreg & _ & _ & -> & ->)]); rewrite E;
      [destruct r; exact Hwf|].
    cbn [snd]. destruct Hwf as (H1 & H2 & H3 & H4 & H5).
    destruct (parts_append _ _ _ _ H1 H2 H3 Hreg H5) as (P1 & P2 & P3 & P4).
    destruct ri; repeat split; psimpl; assumption.
  - exact Hwf.
  - destruct (reset_effect s Hwf) as (h' & imm & sched & t' & E & _ & Hlen & Hb & _).
    cbn zeta in E. rewrite E. cbn [snd].
    destruct Hwf as (H1 & H2 & H3 & H4 & H5).
    repeat split; psimpl; try assumption.
    eapply Forall_impl; [exact H2|]. intros lw [? ?]. split; [assumption|]. now rewrite Hlen.
  - rewrite complete_effect. destruct (in_flight s !! k) as [sub|]; [|exact Hwf].
    apply on_done_well_formed. eapply well_formed_frame; [..|exact Hwf]; reflexivity.
  - munfold. rewrite process_immediates_effect.
    destruct (_immediates s) as [|index rest]; [exact Hwf|].
    destruct (_callables s !! index) as [[[[cb nm] a] k]|];
      (eapply well_formed_frame; [..|exact Hwf]; reflexivity).
  - munfold. rewrite process_scheduled_effect.
    repeat match goal with
           | |- context [if ?b then _ else _] => destruct b
           | |- context [match ?x with _ => _ end] => destruct x
           end;
      first [exact Hwf | eapply well_formed_frame; [..|exact Hwf]; reflexivity].
  - unfold start_begin. munfold.
    repeat match goal with
           | |- context [if ?b then _ else _] => destruct b
           end;
      first [exact Hwf | eapply well_formed_frame; [..|exact Hwf]; reflexivity].
  - eapply well_formed_frame; [..|exact Hwf]; reflexivity.
Qed.

Lemma exec_events_well_formed evs :
  ∀ s, well_formed s → well_formed (exec_events evs s).
Proof.
  induction evs as [|ev evs IH]; intros s Hwf; [exact Hwf|].
  cbn. apply IH. now apply exec_event_well_formed.
Qed.

Lemma accounted_frame s s' :
  _schedule s' = _schedule s → _immediates s' = _immediates s →
  in_flight s' = in_flight s → _callables s' = _callables s →
  accounted s → accounted s'.
Proof. unfold accounted, immediate_at. intros -> -> -> ->. auto. Qed.

Lemma accounted_index_lt s i :
  accounted s →
  i ∈ map snd (_schedule s) ++ _immediates s ++ map sub_index (in_flight s) →
  (i < length (_callables s))%nat.
Proof.
  intros [Hp _] Hin. rewrite Hp in Hin. apply elem_of_seq in Hin. lia.
Qed.

Lemma is_empty_nil {A} (l : list A) : is_empty l = true → l = [].
Proof. destruct l; [reflexivity|discriminate]. Qed.

Lemma exec_event_accounted ev s :
  well_formed s → accounted s → quiet_step ev s = true →
  accounted (snd (exec_event ev s)).
Proof.
  intros Hwf Hacc Hq.
  destruct ev as [cb a k| | |k raised| | |allow_empty|]; cbn [exec_event quiet_step] in *.
  - munfold. destruct (add_effect cb a k s Hwf)
      as (r & s' & E & [[-> _]|(h & ri & Hreg & _ & Hri & -> & ->)]); rewrite E;
      [destruct r; exact Hacc|].
    cbn [snd]. destruct Hacc as [Hp Hi].
    assert (Hmono : ∀ i, immediate_at s i →
              ∃ c, (_callables s ++ [(cb, cb_name cb, a, k)]) !! i = Some c ∧
                   _periodic_run_immediately c.1.1.1 = Some true).
    { intros i (c & Hc & Hr). exists c. split; [|exact Hr].
      now apply lookup_app_l_Some. }
    destruct ri; unfold accounted, immediate_at; psimpl;
      rewrite length_app; cbn [length]; rewrite seq_app; cbn [seq Nat.add];
      rewrite <- Hp; (split; [|]).
    + solve_Permutation.
    + apply Forall_app. split; [eapply Forall_impl; [exact Hi|exact Hmono]|].
      constructor; [|constructor]. eexists. split; [apply list_lookup_middle; reflexivity|].
      exact Hri.
    + unfold heappush. rewrite map_app. cbn. solve_Permutation.
    + eapply Forall_impl; [exact Hi|exact Hmono].
  - exact Hacc.
  - apply is_empty_nil in Hq.
    destruct (reset_effect s Hwf) as (h' & imm & sched & t' & E & _ & _ & _ & _ & Hp & Hi).
    cbn zeta in E. rewrite E. cbn [snd]. unfold accounted, immediate_at. psimpl.
    rewrite Hq. cbn. rewrite app_nil_r. split; [exact Hp|].
    apply Forall_forall. exact Hi.
  - rewrite complete_effect in *.
    destruct (in_flight s !! k) as [sub|] eqn:Hk; [|exact Hacc].
    match goal with |- context [_on_done ?a ?b ?c ?d ?e ?f ?s0] =>
      destruct (on_done_effect a b c d e f s0)
        as (r & s' & E & [[Hr _]|(l & w & m & m' & t0 & t1 & f' & _ & _ & _ & _ &
                                  [[Hr _]|(next_run & _ & -> & ->)])]) end;
      rewrite E in *; cbn [fst snd] in *; try congruence.
    destruct Hacc as [Hp Hi]. unfold accounted, immediate_at. psimpl. split.
    + rewrite <- Hp. rewrite (delete_Permutation _ _ _ Hk) at 2.
      unfold heappush. rewrite map_app. cbn. solve_Permutation.
    + exact Hi.
  - munfold. rewrite process_immediates_effect.
    destruct (_immediates s) as [|index rest] eqn:Him; [exact Hacc|].
    assert (Hlt : (index < length (_callables s))%nat).
    { apply accounted_index_lt; [exact Hacc|]. rewrite Him. set_solver. }
    destruct Hacc as [Hp Hi]. rewrite Him in Hp, Hi.
    destruct (_callables s !! index) as [[[[cb nm] a] k]|] eqn:Hc;
      [|apply lookup_ge_None in Hc; lia].
    unfold accounted, immediate_at. psimpl. split.
    + rewrite <- Hp. rewrite map_app. cbn. solve_Permutation.
    + now apply Forall_cons in Hi as [_ Hi].
  - munfold. rewrite process_scheduled_effect.
    destruct (is_empty (_schedule s) && negb (_tombstone s) && is_empty (_immediates s));
      [exact Hacc|].
    destruct (_tombstone s); [exact Hacc|].
    destruct (negb (is_empty (_immediates s))); [exact Hacc|].
    destruct (heappop (_schedule s)) as [[[next_run index] rest]|e] eqn:Hpop;
      [|eapply accounted_frame; [..|exact Hacc]; reflexivity].
    apply heappop_perm in Hpop.
    assert (Hlt : (index < length (_callables s))%nat).
    { apply accounted_index_lt; [exact Hacc|]. rewrite Hpop. cbn. set_solver. }
    destruct Hacc as [Hp Hi]. rewrite Hpop in Hp. cbn in Hp.
    destruct (Qle_bool (next_run - _now_func s (ticks s)) 0).
    + destruct (_callables s !! index) as [[[[cb nm] a] k]|] eqn:Hc;
        [|apply lookup_ge_None in Hc; lia].
      unfold accounted, immediate_at. psimpl. split; [|exact Hi].
      rewrite <- Hp. rewrite map_app. cbn. solve_Permutation.
    + unfold accounted, immediate_at. psimpl. split; [|exact Hi].
      rewrite <- Hp. unfold heappush. rewrite map_app. cbn. solve_Permutation.
  - unfold start_begin. munfold.
    repeat match goal with
           | |- context [if ?b then _ else _] => destruct b
           end;
      first [exact Hacc | eapply accounted_frame; [..|exact Hacc]; reflexivity].
  - eapply accounted_frame; [..|exact Hacc]; reflexivity.
Qed.

Lemma quiet_cons ev evs s :
  quiet (ev :: evs) s = quiet_step ev s && quiet evs (snd (exec_event ev s)).
Proof. reflexivity. Qed.

Lemma exec_events_accounted evs :
  ∀ s, well_formed s → accounted s → quiet evs s = true →
       accounted (exec_events evs s).
Proof.
  induction evs as [|ev evs IH]; intros s Hwf Hacc Hq; [exact Hacc|].
  rewrite quiet_cons in Hq. apply andb_prop in Hq as [Hq1 Hq2].
  cbn. apply IH; [now apply exec_event_well_formed| |exact Hq2].
  now apply exec_event_accounted.
Qed.

(** ** Counting entries *)


Lemma filter_map_snd (l : list entry) (i : nat) :
  length (filter (fun j : nat => j = i) (map snd l))
  = length (filter (fun e : entry => e.2 = i) l).
Proof.
  induction l as [|e l IH]; [reflexivity|].
  cbn [map]. rewrite !filter_cons. destruct (decide (e.2 = i)); cbn; now rewrite IH.
Qed.

Lemma filter_eq_not_in (l : list nat) (i : nat) :
  i ∉ l → length (filter (fun j : nat => j = i) l) = 0%nat.
Proof.
  intros Hn. apply length_zero_iff_nil. apply elem_of_nil_inv.
  intros j Hj. apply list_elem_of_filter in Hj as [-> Hj]. contradiction.
Qed.

(** ** The worker's invariants, as claimed *)

Lemma reachable_invariants callables ex name now w0 evs :
  new_PeriodicWorker callables ex name now = Return w0 →
  well_formed (exec_events evs w0) ∧
  (quiet evs w0 = true → accounted (exec_events evs w0)).
Proof.
  intros Hnew. pose proof (new_worker_spec callables ex name now) as Hs.
  rewrite Hnew in Hs. destruct Hs as (Hwf & Hacc & _).
  split; [now apply exec_events_well_formed|].
  intros Hq. now apply exec_events_accounted.
Qed.


(** C6: [runs == successes + failures] holds of the initial metrics, of
    every metrics dictionary in every state reached from construction, and
    still after a call of the completion callback [_on_done] with any
    arguments, whether it returns or raises; a watcher reads it so. *)
Theorem runs_are_successes_plus_failures callables ex name now w0 evs
    k cb nm index sub fut :
  new_PeriodicWorker callables ex name now = Return w0 →
  let w := exec_events evs w0 in
  balanced _INITIAL_METRICS ∧
  Forall balanced (heap w) ∧
  Forall balanced (heap (snd (_on_done k cb nm index sub fut w))) ∧
  (∀ x, x ∈ iter_watchers w →
     ∃ m, Watcher_runs x w = (Return (runs m), w) ∧
          Watcher_successes x w = (Return (successes m), w) ∧
          Watcher_failures x w = (Return (failures m), w) ∧
          (runs m = successes m + failures m)%Z).
Proof.
  intros Hnew w.
  destruct (reachable_invariants callables ex name now w0 evs Hnew) as [Hwf _].
  fold w in Hwf. clearbody w.
  split; [reflexivity|]. split; [apply Hwf|].
  split; [apply on_done_well_formed, Hwf|].
  intros x Hx. apply list_elem_of_fmap in Hx as ([l x'] & -> & Hin).
  destruct Hwf as (H1 & H2 & _). rewrite Forall_forall in H2.
  destruct (H2 _ Hin) as [Hl Hlt]. cbn [fst snd] in *.
  unfold Watcher_runs, Watcher_successes, Watcher_failures. munfold.
  rewrite Hl. destruct (heap w !! l) as [m|] eqn:Hm;
    [|apply lookup_ge_None in Hm; lia].
  exists m. repeat split; try reflexivity.
  eapply Forall_lookup_1 in H1; [exact H1|exact Hm].
Qed.

(** C7: in every state reached from construction, [reset] returns, and
    after it every watcher of the worker reads 0 for [runs], [successes],
    [failures], [elapsed] and [elapsed_waiting]: the watchers are the same
    objects and the dictionary at their address was zeroed.  The tombstone
    and [dead] are clear, and the immediates and the schedule are what
    [_build] returns for the registered callables: every index once. *)
Theorem reset_zeroes_watchers callables ex name now w0 evs x :
  new_PeriodicWorker callables ex name now = Return w0 →
  x ∈ iter_watchers (exec_events evs w0) →
  let w := exec_events evs w0 in
  let w' := snd (reset w) in
  fst (reset w) = Return tt ∧
  Watcher_runs x w' = (Return 0%Z, w') ∧
  Watcher_successes x w' = (Return 0%Z, w') ∧
  Watcher_failures x w' = (Return 0%Z, w') ∧
  Watcher_elapsed x w' = (Return 0, w') ∧
  Watcher_elapsed_waiting x w' = (Return 0, w') ∧
  iter_watchers w' = iter_watchers w ∧
  _callables w' = _callables w ∧
  _tombstone w' = false ∧ _dead w' = false ∧
  (∃ cleared after,
     _build (_callables w) (_initial_schedule_strategy w) cleared
       = (Return (_immediates w', _schedule w'), after)) ∧
  map snd (_schedule w') ++ _immediates w' ≡ₚ seq 0 (__len__ w').
Proof.
  intros Hnew Hx w w'.
  destruct (reachable_invariants callables ex name now w0 evs Hnew) as [Hwf _].
  fold w in Hwf, Hx. clearbody w.
  destruct (reset_effect w Hwf) as (h' & imm & sched & t' & E & Eb & _ & _ & Hz & Hp & _).
  cbn zeta in E, Eb. subst w'. rewrite E. cbn [fst snd].
  apply list_elem_of_fmap in Hx as ([l x'] & -> & Hin).
  destruct Hwf as (_ & H2 & _). rewrite Forall_forall in H2.
  destruct (H2 _ Hin) as [Hl _]. specialize (Hz _ Hin). cbn [fst snd] in *.
  unfold Watcher_runs, Watcher_successes, Watcher_failures, Watcher_elapsed,
    Watcher_elapsed_waiting. munfold. psimpl. rewrite Hl, Hz.
  repeat (split; [reflexivity|]).
  split; [eexists _, _; exact Eb|exact Hp].
Qed.

(** ** Selecting the strategy *)

(** C8: a name that is not in the table makes [__init__] raise
    [ValueError] (the strategy message, unless one of the callables given
    was rejected first, also with [ValueError]): no worker is returned, and
    nothing was scheduled and the clock was not read.  A name of the table
    selects its pair, whose initial strategy is [_now_plus_periodicity], and
    the worker built has that pair; construction then fails only when a
    callable given is rejected. *)
Theorem strategy_selection callables ex name now :
  if decide (name ∈ strategy_names) then
    ∃ post,
      BUILT_IN_STRATEGIES = Return strategy_table ∧
      strategy_table !! name = Some (post, _now_plus_periodicity) ∧
      match new_PeriodicWorker callables ex name now with
      | Return w =>
          _schedule_strategy w = post ∧
          _initial_schedule_strategy w = _now_plus_periodicity
      | Raise e => fst (init_callables callables (fresh ex now)) = Raise e
      end
  else
    ∃ msg s',
      __init__ callables name (fresh ex now) = (Raise (ValueError msg), s') ∧
      new_PeriodicWorker callables ex name now = Raise (ValueError msg) ∧
      _schedule s' = [] ∧ _immediates s' = [] ∧ in_flight s' = [] ∧ ticks s' = 0%nat ∧
      match fst (init_callables callables (fresh ex now)) with
      | Return _ =>
          msg = "Scheduling strategy must be one of the selectable strategies"%string
      | Raise e => e = ValueError msg
      end.
Proof.
  destruct (init_callables_effect callables (fresh ex now) (fresh_well_formed ex now))
    as (r & s1 & E & Hwf1 & F1 & F2 & F3 & F4 & Hr).
  unfold new_PeriodicWorker, __init__. munfold. rewrite E. cbn [fst].
  rewrite built_in_strategies.
  destruct (decide (name ∈ strategy_names)) as [Hin|Hnin].
  - destruct (strategy_table_names name Hin) as [post Hpost].
    exists post. split; [reflexivity|]. split; [exact Hpost|].
    destruct Hr as [->|[msg ->]]; [|reflexivity].
    rewrite Hpost. psimpl.
    destruct Hwf1 as (_ & _ & H3 & _).
    match goal with |- context [_build ?cs _ ?s2] =>
      destruct (build_ok cs s2 H3) as (imm & sched & t' & Eb & _) end.
    rewrite Eb. split; reflexivity.
  - destruct Hr as [->|[msg ->]].
    + rewrite (strategy_table_None name Hnin).
      eexists _, _. split; [reflexivity|]. split; [reflexivity|].
      repeat split; assumption.
    + eexists _, _. split; [reflexivity|]. split; [reflexivity|].
      repeat split; assumption.
Qed.

(** ** start after stop *)

(** C2, as the code has it: with the tombstone set (stop was called, no
    reset since), the worker not active and no future pending, [start]
    raises only for an empty worker without [allow_empty]; otherwise it
    returns normally: the loop does not take a turn, whatever the script,
    and the state is as before with [dead] set and [active] clear. *)
Theorem start_after_stop (self : PeriodicWorker) (allow_empty : bool)
    (script : list (list event * list event)) :
  _tombstone self = true → _active self = false → in_flight self = [] →
  start allow_empty script [] self =
  if is_empty (_callables self) && negb allow_empty then
    Some (Raise (RuntimeError "A periodic worker can not start without any callables"),
          self)
  else
    Some (Return tt,
          set_active false (set_dead true (set_active true (set_dead false self)))).
Proof.
  intros Ht Ha Hf. unfold start, start_begin. munfold.
  destruct (is_empty (_callables self) && negb allow_empty); [reflexivity|].
  rewrite Ha. psimpl.
  destruct script as [|[e1 e2] script]; cbn [_run]; psimpl; rewrite Ht;
    cbn [exec_events foldl]; psimpl; rewrite Hf; reflexivity.
Qed.

(** ** The statements at concrete workers *)

Lemma sample_worker_built :
  new_PeriodicWorker two_callables SynchronousExecutor "last_finished" counting_clock
  = Return sample_worker.
Proof. vm_compute. reflexivity. Qed.


Lemma runs_are_successes_plus_failures_witness :
  let w := exec_events sample_run sample_worker in
  balanced _INITIAL_METRICS ∧
  Forall balanced (heap w) ∧
  Forall balanced
    (heap (snd (_on_done PERIODIC every_one_sec "every_one_sec" 0 7
                  (Return (8, 9, Some {| retain := true |})) w))) ∧
  (∀ x, x ∈ iter_watchers w →
     ∃ m, Watcher_runs x w = (Return (runs m), w) ∧
          Watcher_successes x w = (Return (successes m), w) ∧
          Watcher_failures x w = (Return (failures m), w) ∧
          (runs m = successes m + failures m)%Z).
Proof.
  apply (runs_are_successes_plus_failures two_callables SynchronousExecutor
           "last_finished" counting_clock sample_worker sample_run).
  vm_compute. reflexivity.
Defined.

Lemma sample_watcher :
  {| _metrics := 0%nat |} ∈ iter_watchers (exec_events sample_run sample_worker).
Proof. vm_compute. apply list_elem_of_here. Qed.

Lemma reset_zeroes_watchers_witness :
  let x := {| _metrics := 0%nat |} in
  let w := exec_events sample_run sample_worker in
  let w' := snd (reset w) in
  fst (reset w) = Return tt ∧
  Watcher_runs x w' = (Return 0%Z, w') ∧
  Watcher_successes x w' = (Return 0%Z, w') ∧
  Watcher_failures x w' = (Return 0%Z, w') ∧
  Watcher_elapsed x w' = (Return 0, w') ∧
  Watcher_elapsed_waiting x w' = (Return 0, w') ∧
  iter_watchers w' = iter_watchers w ∧
  _callables w' = _callables w ∧
  _tombstone w' = false ∧ _dead w' = false ∧
  (∃ cleared after,
     _build (_callables w) (_initial_schedule_strategy w) cleared
       = (Return (_immediates w', _schedule w'), after)) ∧
  map snd (_schedule w') ++ _immediates w' ≡ₚ seq 0 (__len__ w').
Proof.
  intros x.
  apply (reset_zeroes_watchers two_callables SynchronousExecutor
           "last_finished" counting_clock sample_worker sample_run x).
  - vm_compute. reflexivity.
  - vm_compute. apply list_elem_of_here.
Defined.

(** The run of [sample_run] left something to zero: each of the two
    callables ran once, and the first failed. *)
Example sample_run_metrics :
  (runs <$> heap (exec_events sample_run sample_worker)) = [1%Z; 1%Z; 0%Z] ∧
  (failures <$> heap (exec_events sample_run sample_worker)) = [1%Z; 0%Z; 0%Z].
Proof. vm_compute. split; reflexivity. Qed.

Lemma start_after_stop_witness :
  let w1 := test_stopped "last_started" [0; 2; 2; 3] (32 # 10) in
  start false [] [] w1 =
  (if is_empty (_callables w1) && negb false then
     Some (Raise (RuntimeError "A periodic worker can not start without any callables"),
           w1)
   else
     Some (Return tt,
           set_active false (set_dead true (set_active true (set_dead false w1))))).
Proof.
  intros w1. apply (start_after_stop w1 false []).
  - vm_compute. reflexivity.
  - vm_compute. reflexivity.
  - vm_compute. reflexivity.
Defined.

(** C2 as stated fails: the worker of the tests ran, was stopped and was
    not reset; it is started again, and [start] returns instead of
    raising. *)
Lemma start_after_stop_returns :
  let w0 := test_worker "last_started" [0; 2; 2; 3] (32 # 10) in
  let w1 := test_stopped "last_started" [0; 2; 2; 3] (32 # 10) in
  new_PeriodicWorker [(slow_periodic, None, None)] SynchronousExecutor "last_started"
    (fake_clock [0; 2; 2; 3] (32 # 10)) = Return w0 ∧
  start false test_run [] w0 = Some (Return tt, w1) ∧
  _tombstone w1 = true ∧ _active w1 = false ∧ _dead w1 = true ∧
  fst <$> start false [] [] w1 = Some (Return tt) ∧
  start true [] [] w1 ≠ Some (Raise (RuntimeError "A periodic worker can not be started twice"), w1).
Proof.
  vm_compute. repeat split. intros H. discriminate H.
Qed.

Lemma strategy_selection_witness :
  (∃ msg, new_PeriodicWorker [] SynchronousExecutor "not_a_strategy" (fun _ => 0)
          = Raise (ValueError msg)) ∧
  (∃ w, new_PeriodicWorker [] SynchronousExecutor "aligned_last_finished" (fun _ => 0)
        = Return w ∧ _schedule_strategy w = _aligned_last_finished_strategy).
Proof.
  split.
  - pose proof (strategy_selection [] SynchronousExecutor "not_a_strategy" (fun _ => 0))
      as H.
    destruct (decide ("not_a_strategy"%string ∈ strategy_names)) as [Hin|_].
    + exfalso. unfold strategy_names in Hin.
      repeat (apply elem_of_cons in Hin as [Hin|Hin]; [discriminate Hin|]).
      apply elem_of_nil in Hin. exact Hin.
    + destruct H as (msg & s' & _ & H & _). exists msg. exact H.
  - eexists. split; vm_compute; reflexivity.
Defined.

(** ** The tests of the strategies, replayed *)

(** [test_last_finished_strategy], [test_last_started_strategy] and
    [test_aligned_strategy]: with the synchronous executor the run
    completes inside the submission; the schedule left is
    [[(expected_next, 0)]]. *)
Example test_last_finished_strategy :
  _schedule (test_stopped "last_finished" [0; 2; 2; 3] (32 # 10)) = [(5, 0%nat)].
Proof. vm_compute. reflexivity. Qed.

Example test_last_started_strategy :
  _schedule (test_stopped "last_started" [0; 2; 2; 3] (32 # 10)) = [(4, 0%nat)].
Proof. vm_compute. reflexivity. Qed.

Example test_aligned_strategy :
  _schedule (test_stopped "aligned_last_finished" [0; 2; 2; 5] (55 # 10)) = [(6, 0%nat)].
Proof. vm_compute. reflexivity. Qed.

(** ** The jitter strategies *)

(** A jitter strategy is the [decorator(cb, metrics, now=None)] of
    [_add_jitter]; the worker calls its post strategy with four positional
    arguments, which that parameter list does not take. *)
Lemma jitter_strategies_raise (func : strategy_func) (cb : callback)
    (started_at finished_at : Q) (m : loc) :
  ∃ msg, call_positional4 (_add_jitter_wrapper DEFAULT_JITTER func) cb
           started_at finished_at m = Raise (TypeError msg).
Proof. eexists. reflexivity. Qed.

(** In a worker built with a jitter strategy the completion callback
    raises after it has counted the run, and the callable is not scheduled
    again. *)
Example jitter_worker_loses_callable :
  let w0 := test_worker "last_finished_jitter" [0; 2; 2; 3] (32 # 10) in
  let w1 := test_stopped "last_finished_jitter" [0; 2; 2; 3] (32 # 10) in
  __len__ w0 = 1%nat ∧ _schedule w0 = [(2, 0%nat)] ∧
  _schedule w1 = [] ∧ in_flight w1 = [] ∧ (runs <$> heap w1) = [1%Z] ∧
  quiet [EvScheduled; EvDone 0 false] w0 = false.
Proof. vm_compute. repeat split. Qed.

(** ** The contract of the heap *)

Lemma entry_ltb_false (x y : entry) :
  entry_ltb x y = false ↔ y.1 < x.1 ∨ (x.1 == y.1 ∧ (y.2 ≤ x.2)%nat).
Proof.
  unfold entry_ltb. destruct (x.1 ?= y.1) eqn:E.
  - apply Qeq_alt in E. rewrite Nat.ltb_ge. split; [intros H; right; auto|].
    intros [H|[_ H]]; [rewrite E in H; exfalso; revert H; apply Qlt_irrefl|exact H].
  - apply Qlt_alt in E. split; [discriminate|].
    intros [H|[H _]]; exfalso; lra.
  - apply Qgt_alt in E. split; [intros _; left; exact E|reflexivity].
Qed.

(** [heappop] returns an entry that no entry left is below. *)
Lemma pop_least_least (x : entry) (h : list entry) m rest :
  pop_least x h = (m, rest) → Forall (fun y => entry_ltb y m = false) rest.
Proof.
  revert x m rest. induction h as [|y h IH]; intros x m rest; cbn.
  - intros [= <- <-]. constructor.
  - destruct (pop_least y h) as [m' rest'] eqn:E. apply IH in E.
    destruct (entry_ltb m' x) eqn:Hlt; intros [= <- <-].
    + constructor; [|exact E].
      apply entry_ltb_false. unfold entry_ltb in Hlt.
      destruct (m'.1 ?= x.1) eqn:C; [| |discriminate].
      * apply Qeq_alt in C. apply Nat.ltb_lt in Hlt. right. split; [now symmetry|lia].
      * apply Qlt_alt in C. left. exact C.
    + constructor; [exact Hlt|].
      eapply Forall_impl; [exact E|]. intros z Hz. cbv beta in Hz.
      apply entry_ltb_false. apply entry_ltb_false in Hz, Hlt.
      destruct Hz as [Hz|[Hz1 Hz2]], Hlt as [Hl|[Hl1 Hl2]].
      * left. lra.
      * left. lra.
      * left. lra.
      * right. split; [lra|lia].
Qed.

Lemma heappop_least (h : list entry) e rest :
  heappop h = Return (e, rest) →
  h ≡ₚ e :: rest ∧ Forall (fun y => entry_ltb y e = false) rest.
Proof.
  intros H. split; [now apply heappop_perm|].
  destruct h as [|x h]; cbn in H; [discriminate|].
  injection H as H. now apply pop_least_least in H.
Qed.

(** ** Events and [start] *)

Lemma exec_events_app evs1 evs2 s :
  exec_events (evs1 ++ evs2) s = exec_events evs2 (exec_events evs1 s).
Proof. unfold exec_events. apply foldl_app. Qed.

Lemma exec_events_cons ev evs s :
  exec_events (ev :: evs) s = exec_events evs (snd (exec_event ev s)).
Proof. reflexivity. Qed.

Lemma on_done_frame k cb name index sub fut s :
  let s' := snd (_on_done k cb name index sub fut s) in
  _executor_factory s' = _executor_factory s ∧
  _schedule_strategy s' = _schedule_strategy s ∧
  _callables s' = _callables s ∧ in_flight s' = in_flight s.
Proof.
  destruct (on_done_effect k cb name index sub fut s)
    as (r & s' & E & [[_ ->]|(l & w & m & m' & t0 & t1 & f & _ & _ & _ & _ &
                              [[_ ->]|(next_run & _ & _ & ->)])]);
    rewrite E; cbn [snd]; repeat split.
Qed.

(** The executor class, the post strategy and the callables registered so
    far stay through every event. *)
Lemma exec_event_frame ev s :
  well_formed s →
  let s' := snd (exec_event ev s) in
  _executor_factory s' = _executor_factory s ∧
  _schedule_strategy s' = _schedule_strategy s.
Proof.
  intros Hwf. destruct ev as [cb a k| | |k raised| | |allow_empty|]; cbn [exec_event].
  - munfold. destruct (add_effect cb a k s Hwf)
      as (r & s' & E & [[-> _]|(h & ri & _ & _ & _ & -> & ->)]); rewrite E;
      [destruct r; split; reflexivity|].
    destruct ri; split; reflexivity.
  - split; reflexivity.
  - destruct (reset_effect s Hwf) as (h' & imm & sched & t' & E & _).
    cbn zeta in E. rewrite E. split; reflexivity.
  - rewrite complete_effect. destruct (in_flight s !! k) as [sub|]; [|split; reflexivity].
    match goal with |- context [_on_done ?a ?b ?c ?d ?e ?f ?s0] =>
      destruct (on_done_frame a b c d e f s0) as (F1 & F2 & _) end.
    cbv zeta. rewrite F1, F2. split; reflexivity.
  - munfold. rewrite process_immediates_effect.
    destruct (_immediates s) as [|index rest]; [split; reflexivity|].
    destruct (_callables s !! index) as [[[[cb nm] a] k]|]; split; reflexivity.
  - munfold. rewrite process_scheduled_effect.
    repeat match goal with
           | |- context [if ?b then _ else _] => destruct b
           | |- context [match ?x with _ => _ end] => destruct x
           end; split; reflexivity.
  - unfold start_begin. munfold.
    repeat match goal with
           | |- context [if ?b then _ else _] => destruct b
           end; split; reflexivity.
  - split; reflexivity.
Qed.

Lemma exec_events_frame evs :
  ∀ s, well_formed s →
  _executor_factory (exec_events evs s) = _executor_factory s ∧
  _schedule_strategy (exec_events evs s) = _schedule_strategy s.
Proof.
  induction evs as [|ev evs IH]; intros s Hwf; [split; reflexivity|].
  rewrite exec_events_cons. destruct (exec_event_frame ev s Hwf) as [F1 F2].
  destruct (IH _ (exec_event_well_formed ev s Hwf)) as [G1 G2].
  cbv zeta in F1, F2. rewrite G1, G2, F1, F2. split; reflexivity.
Qed.

(** The turns of [_run] are events: the state in which the loop exits is
    one that the events reach. *)
Lemma run_reaches script :
  ∀ s res s', well_formed s →
    _run (select_runner (_executor_factory s)) script s = Some (res, s') →
    ∃ evs, s' = exec_events evs s.
Proof.
  induction script as [|[e1 e2] script IH]; intros s res s' Hwf; cbn [_run].
  - destruct (_tombstone s); [|discriminate]. intros [= _ <-]. now exists [].
  - destruct (_tombstone s); [intros [= _ <-]; now exists []|].
    destruct (_process_immediates _ s) as [[[]|e] s1] eqn:E1.
    + assert (Hs1 : s1 = exec_events [EvImmediates] s).
      { cbn. munfold. now rewrite E1. }
      assert (Hwf2 : well_formed (exec_events ([EvImmediates] ++ e1) s))
        by now apply exec_events_well_formed.
      destruct (exec_events_frame ([EvImmediates] ++ e1) s Hwf) as [F _].
      rewrite exec_events_app, <- Hs1 in Hwf2, F.
      destruct (_process_scheduled _ (exec_events e1 s1)) as [[[]|e] s2] eqn:E2.
      * assert (Hs2 : s2 = exec_events [EvScheduled] (exec_events e1 s1)).
        { cbn. munfold. rewrite F. now rewrite E2. }
        intros Hrun.
        assert (Hwf3 : well_formed (exec_events e2 s2)).
        { apply exec_events_well_formed. rewrite Hs2.
          now apply exec_events_well_formed. }
        assert (F3 : _executor_factory (exec_events e2 s2) = _executor_factory s).
        { destruct (exec_events_frame e2 s2) as [G _].
          { rewrite Hs2. now apply exec_events_well_formed. }
          rewrite G, Hs2.
          destruct (exec_events_frame [EvScheduled] (exec_events e1 s1) Hwf2) as [G' _].
          now rewrite G', F. }
        rewrite <- F3 in Hrun. apply IH in Hrun as [evs ->]; [|exact Hwf3].
        exists ([EvImmediates] ++ e1 ++ [EvScheduled] ++ e2 ++ evs).
        rewrite !exec_events_app, <- Hs1, <- Hs2. reflexivity.
      * intros [= _ <-].
        exists ([EvImmediates] ++ e1 ++ [EvScheduled]).
        rewrite !exec_events_app, <- Hs1. cbn. munfold. rewrite F. now rewrite E2.
    + intros [= _ <-]. exists [EvImmediates]. cbn. munfold. now rewrite E1.
Qed.

Lemma exec_start_begin allow_empty s :
  exec_events [EvStartBegin allow_empty] s = snd (start_begin allow_empty s).
Proof.
  unfold exec_events. cbn [foldl exec_event]. cbv [mbind M_bind mret M_ret].
  destruct (start_begin allow_empty s) as [[r|e] s0]; reflexivity.
Qed.

Lemma start_reaches allow_empty script drain s res s' :
  well_formed s →
  start allow_empty script drain s = Some (res, s') →
  ∃ evs, s' = exec_events evs s.
Proof.
  intros Hwf. unfold start.
  destruct (start_begin allow_empty s) as [[r|e] s0] eqn:E0.
  - assert (Hs0 : s0 = exec_events [EvStartBegin allow_empty] s).
    { rewrite exec_start_begin, E0. reflexivity. }
    assert (Hr : r = select_runner (_executor_factory s0)).
    { revert E0. unfold start_begin. munfold.
      destruct (is_empty (_callables s) && negb allow_empty); [discriminate|].
      destruct (_active s); [discriminate|]. intros [= <- <-]. reflexivity. }
    assert (Hwf0 : well_formed s0) by (rewrite Hs0; now apply exec_events_well_formed).
    rewrite Hr.
    destruct (_run _ script s0) as [[res1 s1]|] eqn:Er; [|discriminate].
    apply run_reaches in Er as [evs ->]; [|exact Hwf0].
    destruct (is_empty (in_flight _)); [|discriminate].
    intros [= _ <-].
    exists ([EvStartBegin allow_empty] ++ evs ++ drain ++ [EvStartFinally]).
    rewrite !exec_events_app, <- Hs0. reflexivity.
  - intros [= _ <-]. exists [EvStartBegin allow_empty].
    rewrite exec_start_begin, E0. reflexivity.
Qed.

(** ** Workers with a strategy without jitter: every callback returns *)










(** [test_disabled]: a disabled callable is not added, an enabled one is. *)
Example test_disabled :
  let w := worker_of (new_PeriodicWorker [] SynchronousExecutor "last_started"
                        counting_clock) in
  let no_add_me := decorated "no_add_me" (1 # 2) false false in
  let add_me := decorated "add_me" (1 # 2) false true in
  __len__ w = 0%nat ∧
  fst (add no_add_me [] [] w) = Return None ∧
  __len__ (snd (add no_add_me [] [] w)) = 0%nat ∧
  fst (add add_me [] [] (snd (add no_add_me [] [] w)))
    = Return (Some {| _metrics := 0%nat |}) ∧
  __len__ (snd (add add_me [] [] (snd (add no_add_me [] [] w)))) = 1%nat.
Proof. vm_compute. repeat split. Qed.

(** * Further properties *)

(** ** Statistics *)

Lemma py_max_0_nonneg (d : Q) : 0 <= py_max 0 d.
Proof. unfold py_max. destruct (Qlt_le_dec 0 d); lra. Qed.

Lemma capture_stats_bounds now started_at fut g :
  (0 ≤ _failures (_stats g) ≤ _executed (_stats g))%Z →
  (0 ≤ _cancelled (_stats g))%Z → 0 <= _runtime (_stats g) →
  ∃ g', _capture_stats now started_at fut g = Return g' ∧
        (0 ≤ _failures (_stats g') ≤ _executed (_stats g'))%Z ∧
        (0 ≤ _cancelled (_stats g'))%Z ∧ 0 <= _runtime (_stats g') ∧
        _start_before_submit g' = _start_before_submit g.
Proof.
  intros Hf Hc Hr. pose proof (py_max_0_nonneg (now - started_at)) as Hm.
  destruct fut as [|[e|]]; (eexists; split; [reflexivity|]); cbn;
    repeat split; try lia; try lra.
Qed.

(** X2: after any sequence of folds into a new gatherer the counters are not
    negative, the failures are among the executed, and the runtime is not
    negative. *)
Theorem statistics_bounds (folds : list (Q * Q * Future)) (start_before_submit : bool) :
  ∃ g, capture_all folds (new_Gatherer start_before_submit) = Return g ∧
       (0 ≤ _failures (statistics g) ≤ _executed (statistics g))%Z ∧
       (0 ≤ _cancelled (statistics g))%Z ∧
       0 <= _runtime (statistics g) ∧
       _start_before_submit g = start_before_submit.
Proof.
  assert (H : ∀ g0,
    (0 ≤ _failures (_stats g0) ≤ _executed (_stats g0))%Z →
    (0 ≤ _cancelled (_stats g0))%Z → 0 <= _runtime (_stats g0) →
    ∃ g, capture_all folds g0 = Return g ∧
         (0 ≤ _failures (_stats g) ≤ _executed (_stats g))%Z ∧
         (0 ≤ _cancelled (_stats g))%Z ∧ 0 <= _runtime (_stats g) ∧
         _start_before_submit g = _start_before_submit g0).
  { induction folds as [|[[now started_at] fut] rest IH]; intros g0 Hf Hc Hr.
    - exists g0. repeat split; try assumption; lia.
    - cbn [capture_all].
      destruct (capture_stats_bounds now started_at fut g0 Hf Hc Hr)
        as (g1 & -> & Hf1 & Hc1 & Hr1 & Hb1).
      cbn. destruct (IH g1 Hf1 Hc1 Hr1) as (g & E & Hf2 & Hc2 & Hr2 & Hb2).
      exists g. rewrite Hb2, Hb1. auto. }
  apply (H (new_Gatherer start_before_submit)); cbn; [lia|lia|lra].
Qed.

(** ** The synchronous executor *)

(** X3: a submission to a synchronous executor that was shut down raises and
    changes nothing; otherwise the handle returned is finished, not
    cancelled, and holds the exception of the call when it raised; the
    executor stays alive, [executed] grows by one, [failures] by one when
    the call raised, [cancelled] stays, and [runtime] grows by the
    difference of two consecutive readings of the clock, or by 0 when the
    clock went back. *)
Theorem synchronous_submit (now : nat → Q) (call : outcome string)
    (self : SynchronousExecutorState) :
  if _shutoff self then
    SynchronousExecutor_submit now call self
    = (Raise (RuntimeError "Can not schedule new futures after being shutdown"), self)
  else
    ∃ fut self',
      SynchronousExecutor_submit now call self = (Return fut, self') ∧
      Future_cancelled fut = false ∧
      Future_exception fut
        = Return (match call with Return _ => None | Raise e => Some e end) ∧
      alive self' = true ∧
      let st := statistics (_gatherer self) in
      let st' := statistics (_gatherer self') in
      _executed st' = (_executed st + 1)%Z ∧
      _failures st' = (if returned call then _failures st else _failures st + 1)%Z ∧
      _cancelled st' = _cancelled st ∧
      _runtime st' = _runtime st
                     + py_max 0 (now (S (utils_ticks self)) - now (utils_ticks self)) ∧
      utils_ticks self' = S (S (utils_ticks self)).
Proof.
  unfold SynchronousExecutor_submit, alive.
  destruct (_shutoff self) eqn:Hs; [reflexivity|].
  destruct call as [v|e]; (eexists _, _; split; [reflexivity|]); cbn;
    rewrite ?Hs; repeat split.
Qed.

Lemma exec_ops_counts (now : nat → Q) (ops : list executor_op) :
  ∀ self,
    let st := statistics (_gatherer self) in
    let st' := statistics (_gatherer (exec_ops now ops self)) in
    _cancelled st = 0%Z → (0 ≤ _failures st ≤ _executed st)%Z → 0 <= _runtime st →
    (_executed st', _failures st')
      = accepted ops (_shutoff self) (_executed st) (_failures st) ∧
    _cancelled st' = 0%Z ∧ (0 ≤ _failures st' ≤ _executed st')%Z ∧ 0 <= _runtime st'.
Proof.
  induction ops as [|op ops IH]; intros self; cbv zeta; intros Hc Hf Hr.
  - cbn. repeat split; first [reflexivity | assumption | lia].
  - change (exec_ops now (op :: ops) self)
      with (exec_ops now ops (exec_op now op self)).
    destruct op as [call| |]; cbn [exec_op accepted].
    + unfold SynchronousExecutor_submit.
      destruct (_shutoff self) eqn:Hs; cbn [snd].
      * specialize (IH self Hc Hf Hr). cbv zeta in IH. rewrite Hs in IH. exact IH.
      * pose proof (py_max_0_nonneg
                      (now (S (utils_ticks self)) - now (utils_ticks self))) as Hm.
        destruct call as [v|e]; cbn;
          match goal with |- context [exec_ops now ops ?s1] =>
            specialize (IH s1) end;
          cbn in IH; rewrite ?Hs in IH; apply IH; unfold statistics in *;
          try lia; try lra.
    + specialize (IH (shutdown self) Hc Hf Hr). exact IH.
    + unfold restart. destruct (_shutoff self) eqn:Hs.
      * match goal with |- context [exec_ops now ops ?s1] =>
          specialize (IH s1) end.
        cbn in IH. apply IH; [reflexivity|lia|lra].
      * specialize (IH self Hc Hf Hr). cbv zeta in IH. rewrite Hs in IH. exact IH.
Qed.

(** X4: whatever is done with a synchronous executor, its statistics count
    the submissions it accepted since it was last restarted from a
    shutdown, and among them those whose call raised; a submission refused
    after a shutdown is not counted.  Nothing is ever cancelled, and the
    runtime is not negative. *)
Theorem synchronous_history (now : nat → Q) (ops : list executor_op)
    (eventlet_available green : bool) (self : SynchronousExecutorState) :
  new_SynchronousExecutor eventlet_available green = Return self →
  let st := statistics (_gatherer (exec_ops now ops self)) in
  (_executed st, _failures st) = accepted ops false 0%Z 0%Z ∧
  _cancelled st = 0%Z ∧ (0 ≤ _failures st ≤ _executed st)%Z ∧ 0 <= _runtime st.
Proof.
  unfold new_SynchronousExecutor.
  destruct (green && negb eventlet_available); [discriminate|].
  intros [= <-]. apply (exec_ops_counts now ops); cbn; [reflexivity|lia|lra].
Qed.

Lemma synchronous_history_witness :
  let now := fun n : nat => inject_Z (Z.of_nat n) in
  let self := {| _shutoff := false; _gatherer := new_Gatherer true; utils_ticks := 0 |} in
  let ops := [OpSubmit (Return "a"%string); OpSubmit (Raise (ValueError "b"));
              OpShutdown; OpSubmit (Return "c"%string); OpRestart;
              OpSubmit (Raise (ValueError "d"))] in
  let st := statistics (_gatherer (exec_ops now ops self)) in
  (_executed st, _failures st) = (1%Z, 1%Z) ∧
  _cancelled st = 0%Z ∧ (0 ≤ _failures st ≤ _executed st)%Z ∧ 0 <= _runtime st.
Proof.
  intros now self ops.
  apply (synchronous_history now ops false false self). reflexivity.
Defined.

(** X5: [restart] revives an executor that was shut down and clears its
    statistics, after which a submission is accepted; on an executor that
    is alive it changes nothing, so the statistics are kept.  [shutdown] of
    an executor that was shut down changes nothing. *)
Theorem restart_revives (now : nat → Q) (call : outcome string)
    (self : SynchronousExecutorState) :
  alive (restart (shutdown self)) = true ∧
  statistics (_gatherer (restart (shutdown self))) = new_ExecutorStatistics ∧
  returned (fst (SynchronousExecutor_submit now call (restart (shutdown self)))) = true ∧
  returned (fst (SynchronousExecutor_submit now call (shutdown self))) = false ∧
  shutdown (shutdown self) = shutdown self ∧
  (if alive self then restart self = self
   else statistics (_gatherer (restart self)) = new_ExecutorStatistics).
Proof.
  split; [reflexivity|]. split; [reflexivity|].
  split; [destruct call; reflexivity|]. split; [reflexivity|]. split; [reflexivity|].
  unfold alive, restart. destruct (_shutoff self); reflexivity.
Qed.

(** ** The decorator *)


(** ** add *)

Lemma add_enabled_effect cb a k s h ri :
  _initial_schedule_strategy s = _now_plus_periodicity →
  cb_callable cb = true → _is_periodic cb = Some true →
  _periodic_spacing cb = Some h → _periodic_run_immediately cb = Some ri →
  add cb a k s =
  (Return (Some {| _metrics := length (heap s) |}),
   (if ri : bool
    then set_immediates (_immediates s ++ [length (_callables s)])
    else set_schedule (heappush (_schedule s)
                         (h + _now_func s (ticks s), length (_callables s))))
     (set_watchers (_watchers s ++
                      [(length (heap s), {| _metrics := length (heap s) |})])
       (set_callables (_callables s ++ [(cb, cb_name cb, a, k)])
         (set_heap (heap s ++ [_INITIAL_METRICS])
            (set_ticks (S (ticks s)) s))))).
Proof.
  intros Hi Hc He Hh Hr. unfold add. rewrite Hc. cbn [negb].
  assert (Ha : is_empty (_check_attrs cb) = true).
  { apply check_attrs_empty. rewrite He, Hh, Hr. eauto. }
  rewrite Ha. cbn [negb]. munfold.
  unfold get_is_periodic, get_periodic_run_immediately, getattr. rewrite He, Hr.
  cbn [negb]. psimpl. destruct ri; [reflexivity|].
  psimpl. rewrite Hi. unfold _now_plus_periodicity, get_periodic_spacing, getattr.
  rewrite Hh. reflexivity.
Qed.

(** X7: in every state reached from construction, [add] of a callable that
    carries the three attributes and is enabled returns a new watcher that
    reads zero runs; [len(worker)] grows by one, the callable is at the last
    index and the watcher is the last of [iter_watchers]; the clock is read
    once; the index goes to the end of the immediates when the callable asks
    to run immediately, and otherwise into the schedule with the deadline
    spacing + now. *)
Theorem add_enabled callables ex name now w0 evs (cb : callback) (args kwargs : pyargs)
    (h : Q) (ri : bool) :
  new_PeriodicWorker callables ex name now = Return w0 →
  cb_callable cb = true → _is_periodic cb = Some true →
  _periodic_spacing cb = Some h → _periodic_run_immediately cb = Some ri →
  let w := exec_events evs w0 in
  let w' := snd (add cb args kwargs w) in
  ∃ watcher,
    fst (add cb args kwargs w) = Return (Some watcher) ∧
    __len__ w' = S (__len__ w) ∧
    _callables w' !! __len__ w = Some (cb, cb_name cb, args, kwargs) ∧
    iter_watchers w' = iter_watchers w ++ [watcher] ∧
    Watcher_runs watcher w' = (Return 0%Z, w') ∧
    Watcher_elapsed watcher w' = (Return 0, w') ∧
    ticks w' = S (ticks w) ∧
    (if ri then
       _immediates w' = _immediates w ++ [__len__ w] ∧ _schedule w' = _schedule w
     else
       _schedule w' = heappush (_schedule w) (h + _now_func w (ticks w), __len__ w) ∧
       _immediates w' = _immediates w).
Proof.
  intros Hnew Hc He Hh Hr w w'.
  destruct (reachable_invariants callables ex name now w0 evs Hnew) as [Hwf _].
  fold w in Hwf. subst w'. clearbody w.
  destruct Hwf as (_ & _ & _ & Hi & _).
  rewrite (add_enabled_effect cb args kwargs w h ri Hi Hc He Hh Hr). cbn [fst snd].
  eexists. split; [reflexivity|].
  unfold __len__, iter_watchers, Watcher_runs, Watcher_elapsed. munfold.
  destruct ri; psimpl; rewrite ?length_app, ?map_app; cbn [length map snd];
    rewrite !list_lookup_middle by reflexivity;
    (repeat split; try reflexivity; lia).
Qed.

Lemma add_enabled_witness :
  let w := exec_events sample_run sample_worker in
  let w' := snd (add slow_periodic [] [] w) in
  ∃ watcher,
    fst (add slow_periodic [] [] w) = Return (Some watcher) ∧
    __len__ w' = S (__len__ w) ∧
    _callables w' !! __len__ w = Some (slow_periodic, cb_name slow_periodic, [], []) ∧
    iter_watchers w' = iter_watchers w ++ [watcher] ∧
    Watcher_runs watcher w' = (Return 0%Z, w') ∧
    Watcher_elapsed watcher w' = (Return 0, w') ∧
    ticks w' = S (ticks w) ∧
    (if false then
       _immediates w' = _immediates w ++ [__len__ w] ∧ _schedule w' = _schedule w
     else
       _schedule w' = heappush (_schedule w) (2 + _now_func w (ticks w), __len__ w) ∧
       _immediates w' = _immediates w).
Proof.
  apply (add_enabled two_callables SynchronousExecutor "last_finished" counting_clock
           sample_worker sample_run slow_periodic [] [] 2 false);
    vm_compute; reflexivity.
Defined.

Lemma init_callables_invalid (cb : callback) callables :
  cb ∈ map (fun c : callback * option pyargs * option pyargs => c.1.1) callables →
  cb_callable cb = false ∨ is_empty (_check_attrs cb) = false →
  ∀ s, ∃ msg s', init_callables callables s = (Raise (ValueError msg), s').
Proof.
  intros Hin Hbad. induction callables as [|[[cb' args] kwargs] rest IH]; intros s.
  - apply elem_of_nil in Hin. destruct Hin.
  - cbn [init_callables].
    destruct (cb_callable cb') eqn:Hc; cbn [negb]; [|eauto].
    destruct (is_empty (_check_attrs cb')) eqn:Ha; cbn [negb]; [|eauto].
    cbn in Hin. apply elem_of_cons in Hin as [-> | Hin];
      [destruct Hbad; congruence|].
    destruct (validated cb' Ha) as (e & h & b & He & Hh & Hb).
    munfold. unfold get_is_periodic, getattr. rewrite He.
    destruct e; psimpl;
      match goal with |- context [init_callables rest ?s1] =>
        destruct (IH Hin s1) as (msg & s' & ->) end; eauto.
Qed.

(** X8: a callable that is not callable, or lacks one of the three attributes,
    is refused with [ValueError]: by [add], which leaves the worker as it
    was, and by the constructor, which returns no worker. *)
Theorem invalid_callable_refused (cb : callback) (args kwargs : pyargs)
    (self : PeriodicWorker) callables ex name now :
  cb_callable cb = false ∨ _is_periodic cb = None ∨ _periodic_spacing cb = None ∨
  _periodic_run_immediately cb = None →
  cb ∈ map (fun c : callback * option pyargs * option pyargs => c.1.1) callables →
  (∃ msg, add cb args kwargs self = (Raise (ValueError msg), self)) ∧
  (∃ msg, new_PeriodicWorker callables ex name now = Raise (ValueError msg)).
Proof.
  intros Hbad Hin.
  assert (Hbad' : cb_callable cb = false ∨ is_empty (_check_attrs cb) = false).
  { destruct (cb_callable cb) eqn:Hc; [right|now left].
    destruct (is_empty (_check_attrs cb)) eqn:Ha; [|reflexivity].
    apply check_attrs_empty in Ha as ([? H1] & [? H2] & [? H3]).
    destruct Hbad as [?|[?|[?|?]]]; congruence. }
  split.
  - unfold add. destruct (cb_callable cb); cbn [negb]; [|eauto].
    destruct Hbad' as [? | ->]; [discriminate|]. cbn [negb]. eauto.
  - unfold new_PeriodicWorker, __init__. munfold.
    destruct (init_callables_invalid cb callables Hin Hbad' (fresh ex now))
      as (msg & s' & ->). eauto.
Qed.

Lemma invalid_callable_refused_witness :
  let cb := {| cb_name := "plain"; cb_callable := true; _is_periodic := None;
               _periodic_spacing := None; _periodic_run_immediately := None |} in
  (∃ msg, add cb [] [] sample_worker = (Raise (ValueError msg), sample_worker)) ∧
  (∃ msg, new_PeriodicWorker [(every_one_sec, None, None); (cb, None, None)]
            SynchronousExecutor "last_started" counting_clock
          = Raise (ValueError msg)).
Proof.
  intros cb.
  apply (invalid_callable_refused cb [] [] sample_worker
           [(every_one_sec, None, None); (cb, None, None)]
           SynchronousExecutor "last_started" counting_clock).
  - right. left. reflexivity.
  - cbn. apply list_elem_of_further, list_elem_of_here.
Defined.

(** ** create *)





(** ** The indices that the worker holds *)

Lemma indexed_grow s s' k :
  _callables s' = _callables s ++ k →
  Forall (fun e : entry => (e.2 < length (_callables s))%nat) (_schedule s) →
  Forall (fun i : nat => (i < length (_callables s))%nat) (_immediates s) →
  Forall (fun sub : submission =>
            ∃ c, _callables s !! sub_index sub = Some c ∧ sub_cb sub = c.1.1.1)
         (in_flight s) →
  Forall (fun e : entry => (e.2 < length (_callables s'))%nat) (_schedule s) ∧
  Forall (fun i : nat => (i < length (_callables s'))%nat) (_immediates s) ∧
  Forall (fun sub : submission =>
            ∃ c, _callables s' !! sub_index sub = Some c ∧ sub_cb sub = c.1.1.1)
         (in_flight s).
Proof.
  intros -> H1 H2 H3. rewrite length_app. split; [|split].
  - eapply Forall_impl; [exact H1|]. cbn. intros; lia.
  - eapply Forall_impl; [exact H2|]. cbn. intros; lia.
  - eapply Forall_impl; [exact H3|]. cbn. intros sub (c & Hc & Hs).
    exists c. split; [now apply lookup_app_l_Some|exact Hs].
Qed.

Lemma indexed_frame s s' :
  _callables s' = _callables s → _schedule s' = _schedule s →
  _immediates s' = _immediates s → in_flight s' = in_flight s →
  indexed s → indexed s'.
Proof. unfold indexed. intros -> -> -> ->. auto. Qed.

Lemma build_indices callables s imm sched s' :
  Forall registered callables →
  _build callables _now_plus_periodicity s = (Return (imm, sched), s') →
  Forall (fun e : entry => (e.2 < length callables)%nat) sched ∧
  Forall (fun i : nat => (i < length callables)%nat) imm.
Proof.
  intros Hreg E. destruct (build_ok callables s Hreg) as (imm' & sched' & t' & E' & Hp & _).
  rewrite E in E'. injection E' as -> -> _.
  assert (H : ∀ i, i ∈ map snd sched' ++ imm' → (i < length callables)%nat).
  { intros i Hi. rewrite Hp in Hi. apply elem_of_seq in Hi. lia. }
  split; apply Forall_forall.
  - intros e He. apply H. apply elem_of_app. left.
    apply list_elem_of_fmap. exists e. split; [reflexivity|exact He].
  - intros i Hi. apply H. apply elem_of_app. now right.
Qed.

Lemma exec_event_indexed ev s :
  well_formed s → indexed s → indexed (snd (exec_event ev s)).
Proof.
  intros Hwf Hix. destruct ev as [cb a k| | |k raised| | |allow_empty|]; cbn [exec_event].
  - munfold. destruct (add_effect cb a k s Hwf)
      as (r & s' & E & [[-> _]|(h & ri & _ & _ & _ & -> & ->)]); rewrite E;
      [destruct r; exact Hix|].
    cbn [snd]. destruct Hix as (I1 & I2 & I3).
    destruct (indexed_grow s
                (set_callables (_callables s ++ [(cb, cb_name cb, a, k)]) s)
                [(cb, cb_name cb, a, k)] eq_refl I1 I2 I3) as (J1 & J2 & J3).
    psimpl.
    destruct ri; unfold indexed; psimpl; (split; [|split]); try assumption.
    + apply Forall_app. split; [exact J2|]. constructor; [|constructor].
      rewrite length_app. cbn. lia.
    + unfold heappush. apply Forall_app. split; [exact J1|]. constructor; [|constructor].
      rewrite length_app. cbn. lia.
  - exact Hix.
  - destruct (reset_effect s Hwf) as (h' & imm & sched & t' & E & Eb & _).
    cbn zeta in E, Eb. rewrite E. cbn [snd].
    destruct Hwf as (_ & _ & H3 & H4 & _). rewrite H4 in Eb.
    destruct (build_indices _ _ _ _ _ H3 Eb) as [B1 B2].
    destruct Hix as (_ & _ & I3). unfold indexed. psimpl. auto.
  - rewrite complete_effect. destruct (in_flight s !! k) as [sub|] eqn:Hk; [|exact Hix].
    destruct Hix as (I1 & I2 & I3).
    assert (Hsub : (sub_index sub < length (_callables s))%nat).
    { eapply Forall_lookup_1 in I3; [|exact Hk]. destruct I3 as (c & Hc & _).
      eapply lookup_lt_Some. exact Hc. }
    match goal with |- context [_on_done ?a ?b ?c ?d ?e ?f ?s0] =>
      destruct (on_done_effect a b c d e f s0)
        as (r & s' & E & [[_ ->]|(l & w & m & m' & t0 & t1 & f' & _ & _ & _ & _ &
                                  [[_ ->]|(next_run & _ & _ & ->)])]) end;
      rewrite E; cbn [snd]; unfold indexed; psimpl;
      (split; [|split; [exact I2|now apply Forall_delete]]); try exact I1.
    unfold heappush. apply Forall_app. split; [exact I1|]. constructor; [exact Hsub|constructor].
  - munfold. rewrite process_immediates_effect.
    destruct (_immediates s) as [|index rest] eqn:Him; [exact Hix|].
    destruct Hix as (I1 & I2 & I3). rewrite Him in I2. apply Forall_cons in I2 as [Hlt I2].
    destruct (_callables s !! index) as [[[[cb nm] a] k]|] eqn:Hc;
      [|apply lookup_ge_None in Hc; lia].
    unfold indexed. psimpl. split; [exact I1|]. split; [exact I2|].
    apply Forall_app. split; [exact I3|]. constructor; [|constructor].
    psimpl. cbn. eexists. split; [exact Hc|reflexivity].
  - munfold. rewrite process_scheduled_effect.
    destruct (is_empty (_schedule s) && negb (_tombstone s) && is_empty (_immediates s));
      [exact Hix|].
    destruct (_tombstone s); [exact Hix|].
    destruct (negb (is_empty (_immediates s))); [exact Hix|].
    destruct (heappop (_schedule s)) as [[[next_run index] rest]|e] eqn:Hpop;
      [|eapply indexed_frame; [..|exact Hix]; reflexivity].
    apply heappop_perm in Hpop. destruct Hix as (I1 & I2 & I3).
    rewrite Hpop in I1. apply Forall_cons in I1 as [Hlt I1]. cbn [snd] in Hlt.
    destruct (Qle_bool (next_run - _now_func s (ticks s)) 0).
    + destruct (_callables s !! index) as [[[[cb nm] a] k]|] eqn:Hc;
        [|apply lookup_ge_None in Hc; lia].
      unfold indexed. psimpl. split; [exact I1|]. split; [exact I2|].
      apply Forall_app. split; [exact I3|]. constructor; [|constructor].
      cbn. eexists. split; [exact Hc|reflexivity].
    + unfold indexed. psimpl. split; [|split; assumption].
      unfold heappush. apply Forall_app. split; [exact I1|].
      constructor; [exact Hlt|constructor].
  - unfold start_begin. munfold.
    repeat match goal with
           | |- context [if ?b then _ else _] => destruct b
           end;
      first [exact Hix | eapply indexed_frame; [..|exact Hix]; reflexivity].
  - eapply indexed_frame; [..|exact Hix]; reflexivity.
Qed.

Lemma exec_events_indexed evs :
  ∀ s, well_formed s → indexed s → indexed (exec_events evs s).
Proof.
  induction evs as [|ev evs IH]; intros s Hwf Hix; [exact Hix|].
  rewrite exec_events_cons. apply IH; [now apply exec_event_well_formed|].
  now apply exec_event_indexed.
Qed.

Lemma new_worker_indexed callables ex name now w0 :
  new_PeriodicWorker callables ex name now = Return w0 → indexed w0.
Proof.
  intros Hnew. pose proof (new_worker_spec callables ex name now) as Hs.
  rewrite Hnew in Hs. destruct Hs as (Hwf & [Hp _] & Hf & _).
  rewrite Hf in *. cbn in Hp. rewrite app_nil_r in Hp.
  assert (H : ∀ i, i ∈ map snd (_schedule w0) ++ _immediates w0 →
                   (i < length (_callables w0))%nat).
  { intros i Hi. rewrite Hp in Hi. apply elem_of_seq in Hi. lia. }
  unfold indexed. rewrite Hf.
  split; [|split; [|constructor]]; apply Forall_forall.
  - intros e He. apply H. apply elem_of_app. left.
    apply list_elem_of_fmap. exists e. split; [reflexivity|exact He].
  - intros i Hi. apply H. apply elem_of_app. now right.
Qed.

Lemma reachable_indexed callables ex name now w0 evs :
  new_PeriodicWorker callables ex name now = Return w0 →
  well_formed (exec_events evs w0) ∧ indexed (exec_events evs w0).
Proof.
  intros Hnew. pose proof (new_worker_spec callables ex name now) as Hs.
  rewrite Hnew in Hs. destruct Hs as (Hwf & _).
  split; [now apply exec_events_well_formed|].
  apply exec_events_indexed; [exact Hwf|]. now apply (new_worker_indexed callables ex name now).
Qed.

(** ** The dispatch loop does not raise *)








(** ** stop ends the loop *)

Lemma run_tombstone r script s :
  _tombstone s = true → _run r script s = Some (Return tt, s).
Proof. intros H. destruct script as [|[e1 e2] script]; cbn [_run]; now rewrite H. Qed.

Lemma exec_events_stop evs s : _tombstone (exec_events (evs ++ [EvStop]) s) = true.
Proof. rewrite exec_events_app. reflexivity. Qed.

(** X11: once [stop] was called the loop takes no further turn: if [stop] is
    the last thing that happens in a turn, [_run] has returned by the end of
    that turn, and what the script holds after it does not matter. *)
Theorem stop_ends_loop (r : runner) (script rest : list (list event * list event))
    (e1 e2 : list event) (s : PeriodicWorker) :
  ∃ res s',
    _run r (script ++ (e1, e2 ++ [EvStop]) :: rest) s = Some (res, s') ∧
    _run r (script ++ [(e1, e2 ++ [EvStop])]) s = Some (res, s').
Proof.
  revert s. induction script as [|[a1 a2] script IH]; intros s; cbn [app _run].
  - destruct (_tombstone s); [eauto|].
    destruct (_process_immediates r s) as [[[]|e] s1]; [|eauto].
    destruct (_process_scheduled r (exec_events e1 s1)) as [[[]|e] s2]; [|eauto].
    rewrite run_tombstone by apply exec_events_stop.
    rewrite exec_events_stop. eauto.
  - destruct (_tombstone s); [eauto|].
    destruct (_process_immediates r s) as [[[]|e] s1]; [|eauto].
    destruct (_process_scheduled r (exec_events a1 s1)) as [[[]|e] s2]; [|eauto].
    apply IH.
Qed.

(** ** What a completion does *)

Lemma on_done_exact k cb name index sub t0 t1 failure s (l : loc) w m h :
  _watchers s !! index = Some (l, w) → heap s !! l = Some m →
  _periodic_spacing cb = Some h →
  _on_done k cb name index sub (Return (t0, t1, failure)) s =
  let m' := add_elapsed_waiting (py_max 0 (t0 - sub))
              (add_elapsed (py_max 0 (t1 - t0))
                 (match failure with
                  | Some _ => incr_failures
                  | None => incr_successes
                  end (incr_runs m))) in
  let s1 := set_heap (<[l := m']> (heap s)) s in
  match call_positional4 (_schedule_strategy s) cb t0 t1 l with
  | Return next_run =>
      (Return tt, set_schedule (heappush (_schedule s) (next_run, index)) s1)
  | Raise e => (Raise e, s1)
  end.
Proof.
  intros Hw Hm Hh. unfold _on_done. munfold. rewrite Hw, Hm.
  assert (Hl : (l < length (heap s))%nat) by (eapply lookup_lt_Some; eauto).
  destruct failure as [f|]; psimpl.
  - rewrite list_lookup_insert_eq by exact Hl.
    psimpl. rewrite !list_insert_insert_eq.
    unfold get_periodic_spacing, getattr. rewrite Hh.
    psimpl. rewrite list_lookup_insert_eq by exact Hl. psimpl.
    rewrite !list_insert_insert_eq.
    rewrite list_lookup_insert_eq by exact Hl. psimpl.
    rewrite !list_insert_insert_eq.
    destruct (call_positional4 _ _ _ _ _) as [next_run|e]; reflexivity.
  - rewrite list_lookup_insert_eq by exact Hl.
    psimpl. rewrite !list_insert_insert_eq.
    rewrite list_lookup_insert_eq by exact Hl. psimpl.
    rewrite !list_insert_insert_eq.
    rewrite list_lookup_insert_eq by exact Hl. psimpl.
    rewrite !list_insert_insert_eq.
    destruct (call_positional4 _ _ _ _ _) as [next_run|e]; reflexivity.
Qed.

Lemma pending_callable s k sub :
  well_formed s → indexed s → in_flight s !! k = Some sub →
  ∃ (l : loc) x m h,
    _watchers s !! sub_index sub = Some (l, x) ∧ _metrics x = l ∧
    heap s !! l = Some m ∧ _periodic_spacing (sub_cb sub) = Some h.
Proof.
  intros (_ & W2 & W3 & _ & W5) (_ & _ & I3) Hk.
  rewrite Forall_lookup in I3. destruct (I3 _ _ Hk) as (c & Hc & Hcb).
  assert (Hlt : (sub_index sub < length (_watchers s))%nat)
    by (rewrite W5; eapply lookup_lt_Some; eauto).
  destruct (lookup_lt_is_Some_2 _ _ Hlt) as [[l x] Hw].
  rewrite Forall_lookup in W2. destruct (W2 _ _ Hw) as [Hx Hl]. cbn in Hx, Hl.
  destruct (lookup_lt_is_Some_2 _ _ Hl) as [m Hm].
  rewrite Forall_lookup in W3. destruct (W3 _ _ Hc) as (_ & [h Hh] & _).
  exists l, x, m, h. rewrite Hcb. auto.
Qed.



(** ** The registry only grows *)

Lemma dense_frame s s' :
  _watchers s' = _watchers s → length (heap s') = length (heap s) →
  dense s → dense s'.
Proof. unfold dense. intros -> ->. auto. Qed.

Lemma dense_add s (x : Watcher) (m : Metrics) s' :
  _watchers s' = _watchers s ++ [(length (heap s), x)] →
  heap s' = heap s ++ [m] → dense s → dense s'.
Proof.
  unfold dense. intros -> -> H. rewrite map_app, length_app, H. cbn [map fst length].
  rewrite Nat.add_1_r, seq_S. reflexivity.
Qed.

Lemma exec_event_grows ev s :
  well_formed s →
  let s' := snd (exec_event ev s) in
  ∃ cs ws, _callables s' = _callables s ++ cs ∧ _watchers s' = _watchers s ++ ws ∧
           length cs = length ws ∧ (dense s → dense s').
Proof.
  intros Hwf.
  assert (Hsame : ∀ s', _callables s' = _callables s → _watchers s' = _watchers s →
                        length (heap s') = length (heap s) →
            ∃ cs ws, _callables s' = _callables s ++ cs ∧
                     _watchers s' = _watchers s ++ ws ∧
                     length cs = length ws ∧ (dense s → dense s')).
  { intros s' H1 H2 H3. exists [], []. rewrite !app_nil_r.
    split; [exact H1|]. split; [exact H2|]. split; [reflexivity|].
    now apply dense_frame. }
  destruct ev as [cb a k| | |k raised| | |allow_empty|]; cbn [exec_event].
  - munfold. destruct (add_effect cb a k s Hwf)
      as (r & s' & E & [[-> _]|(h & ri & _ & _ & _ & -> & ->)]); rewrite E;
      [destruct r; apply Hsame; reflexivity|].
    cbn [snd]. eexists [_], [_].
    destruct ri; psimpl; (split; [reflexivity|]; split; [reflexivity|];
                          split; [reflexivity|]);
      apply dense_add with (x := {| _metrics := length (heap s) |}) (m := _INITIAL_METRICS);
      reflexivity.
  - apply Hsame; reflexivity.
  - destruct (reset_effect s Hwf) as (h' & imm & sched & t' & E & _ & Hl & _).
    cbn zeta in E. rewrite E. apply Hsame; psimpl; [reflexivity..|exact Hl].
  - rewrite complete_effect. destruct (in_flight s !! k) as [sub|]; [|apply Hsame; reflexivity].
    match goal with |- context [_on_done ?a ?b ?c ?d ?e ?f ?s0] =>
      destruct (on_done_effect a b c d e f s0)
        as (r & s' & E & [[_ ->]|(l & w & m & m' & t0 & t1 & f' & _ & _ & _ & _ &
                                  [[_ ->]|(next_run & _ & _ & ->)])]) end;
      rewrite E; cbn [snd]; apply Hsame; psimpl;
      try reflexivity; apply length_insert.
  - munfold. rewrite process_immediates_effect.
    destruct (_immediates s) as [|index rest]; [apply Hsame; reflexivity|].
    destruct (_callables s !! index) as [[[[cb nm] a] k]|]; apply Hsame; reflexivity.
  - munfold. rewrite process_scheduled_effect.
    repeat match goal with
           | |- context [if ?b then _ else _] => destruct b
           | |- context [match ?x with _ => _ end] => destruct x
           end; apply Hsame; reflexivity.
  - unfold start_begin. munfold.
    repeat match goal with
           | |- context [if ?b then _ else _] => destruct b
           end; apply Hsame; reflexivity.
  - apply Hsame; reflexivity.
Qed.

Lemma exec_events_grows evs :
  ∀ s, well_formed s →
  ∃ cs ws, _callables (exec_events evs s) = _callables s ++ cs ∧
           _watchers (exec_events evs s) = _watchers s ++ ws ∧
           length cs = length ws ∧ (dense s → dense (exec_events evs s)).
Proof.
  induction evs as [|ev evs IH]; intros s Hwf.
  - exists [], []. rewrite !app_nil_r. auto.
  - rewrite exec_events_cons.
    destruct (exec_event_grows ev s Hwf) as (cs1 & ws1 & C1 & W1 & L1 & D1).
    destruct (IH _ (exec_event_well_formed ev s Hwf)) as (cs2 & ws2 & C2 & W2 & L2 & D2).
    exists (cs1 ++ cs2), (ws1 ++ ws2). rewrite C2, W2, C1, W1, !app_assoc, !length_app.
    split; [reflexivity|]. split; [reflexivity|]. split; [lia|]. auto.
Qed.

(** X13: whatever happens to a worker after its construction, callables and
    watchers are only ever appended, one watcher for each callable: the
    callables and watchers of an earlier state are a prefix of those of
    every later state, so that an index, once given, names the same callable
    for ever, and [len] never decreases. *)
Theorem registry_append_only callables ex name now w0 (evs evs' : list event) :
  new_PeriodicWorker callables ex name now = Return w0 →
  let w := exec_events evs w0 in
  let w' := exec_events evs' w in
  ∃ cs ws,
    _callables w' = _callables w ++ cs ∧
    iter_watchers w' = iter_watchers w ++ ws ∧
    length cs = length ws ∧
    length (iter_watchers w') = __len__ w' ∧
    (__len__ w ≤ __len__ w')%nat ∧
    ∀ i c, _callables w !! i = Some c → _callables w' !! i = Some c.
Proof.
  intros Hnew w w'.
  destruct (reachable_indexed callables ex name now w0 evs Hnew) as [Hwf _].
  fold w in Hwf.
  destruct (exec_events_grows evs' w Hwf) as (cs & ws & C & W & L & _).
  fold w' in C, W.
  pose proof (exec_events_well_formed evs' w Hwf) as (_ & _ & _ & _ & H5). fold w' in H5.
  exists cs, (map snd ws). unfold iter_watchers, __len__.
  rewrite C, W, map_app, !length_app, !length_map.
  split; [reflexivity|]. split; [reflexivity|]. split; [exact L|].
  split; [rewrite W, C, !length_app in H5; exact H5|]. split; [lia|].
  intros i c Hc. now apply lookup_app_l_Some.
Qed.

Lemma registry_append_only_witness :
  let w := exec_events [EvImmediates] sample_worker in
  let w' := exec_events sample_run w in
  ∃ cs ws,
    _callables w' = _callables w ++ cs ∧
    iter_watchers w' = iter_watchers w ++ ws ∧
    length cs = length ws ∧
    length (iter_watchers w') = __len__ w' ∧
    (__len__ w ≤ __len__ w')%nat ∧
    ∀ i c, _callables w !! i = Some c → _callables w' !! i = Some c.
Proof.
  apply (registry_append_only two_callables SynchronousExecutor "last_finished"
           counting_clock sample_worker [EvImmediates] sample_run).
  vm_compute. reflexivity.
Defined.

(** ** Each callable has its own dictionary *)

Lemma init_callables_dense callables :
  ∀ s, dense s → dense (snd (init_callables callables s)).
Proof.
  induction callables as [|[[cb args] kwargs] rest IH]; intros s Hd; [exact Hd|].
  cbn [init_callables].
  destruct (cb_callable cb); cbn [negb]; [|exact Hd].
  destruct (is_empty (_check_attrs cb)) eqn:Ha; cbn [negb]; [|exact Hd].
  destruct (validated cb Ha) as (e & h & b & He & Hh & Hb).
  munfold. unfold get_is_periodic, getattr. rewrite He.
  destruct e; psimpl.
  - match goal with |- context [init_callables rest ?s1] =>
      specialize (IH s1); destruct (init_callables rest s1) as [[[]|e] s2] end;
      apply IH;
      apply dense_add with (s := s) (x := {| _metrics := length (heap s) |})
                           (m := _INITIAL_METRICS); auto.
  - specialize (IH s Hd). destruct (init_callables rest s) as [[[]|e] s2]; exact IH.
Qed.

Lemma new_worker_dense callables ex name now w0 :
  new_PeriodicWorker callables ex name now = Return w0 → dense w0.
Proof.
  unfold new_PeriodicWorker, __init__. munfold.
  pose proof (init_callables_dense callables (fresh ex now) eq_refl) as Hd.
  destruct (init_callables_effect callables (fresh ex now) (fresh_well_formed ex now))
    as (r & s1 & E & Hwf1 & _ & _ & _ & _ & Hr).
  rewrite E in *. cbn [snd] in Hd. destruct Hr as [->|[msg ->]]; [|discriminate].
  rewrite built_in_strategies.
  destruct (strategy_table !! name) as [[post initial]|] eqn:Hl; [|discriminate].
  apply strategy_table_Some in Hl as [_ ->]. psimpl.
  destruct Hwf1 as (_ & _ & H3 & _).
  match goal with |- context [_build ?cs _ ?s2] =>
    destruct (build_ok cs s2 H3) as (imm & sched & t' & Eb & _) end.
  rewrite Eb. intros [= <-]. eapply dense_frame; [..|exact Hd]; reflexivity.
Qed.

Lemma reachable_dense callables ex name now w0 evs :
  new_PeriodicWorker callables ex name now = Return w0 → dense (exec_events evs w0).
Proof.
  intros Hnew. pose proof (new_worker_spec callables ex name now) as Hs.
  rewrite Hnew in Hs. destruct Hs as (Hwf & _).
  destruct (exec_events_grows evs w0 Hwf) as (_ & _ & _ & _ & _ & Hd).
  apply Hd. now apply (new_worker_dense callables ex name now).
Qed.

Lemma dense_lookup s i (l : loc) x :
  well_formed s → dense s → _watchers s !! i = Some (l, x) → l = i ∧ _metrics x = i.
Proof.
  intros (_ & W2 & _) Hd Hw.
  assert (Hl : l = i).
  { assert (H : (fst <$> _watchers s) !! i = Some l)
      by (rewrite list_lookup_fmap; exact (f_equal (fmap fst) Hw)).
    change (fst <$> _watchers s) with (map fst (_watchers s)) in H.
    rewrite Hd in H. apply lookup_seq in H. lia. }
  split; [exact Hl|]. rewrite Forall_lookup in W2. destruct (W2 _ _ Hw) as [Hx _].
  cbn in Hx. congruence.
Qed.

(** X14: in every state reached from construction, two different callables
    never share a dictionary of metrics (each got its own copy of the
    initial one), and the completion of a run of one callable leaves what
    the watchers of all the other callables report as it was. *)
Theorem watchers_are_isolated callables ex name now w0 evs :
  new_PeriodicWorker callables ex name now = Return w0 →
  let w := exec_events evs w0 in
  (∀ i j x y, iter_watchers w !! i = Some x → iter_watchers w !! j = Some y →
              _metrics x = _metrics y → i = j) ∧
  (∀ k raised sub j y,
      in_flight w !! k = Some sub → iter_watchers w !! j = Some y →
      j ≠ sub_index sub →
      heap (snd (complete k raised w)) !! _metrics y = heap w !! _metrics y).
Proof.
  intros Hnew w.
  destruct (reachable_indexed callables ex name now w0 evs Hnew) as [Hwf Hix].
  pose proof (reachable_dense callables ex name now w0 evs Hnew) as Hd.
  fold w in Hwf, Hix, Hd. clearbody w.
  assert (Hat : ∀ i x, iter_watchers w !! i = Some x → _metrics x = i).
  { intros i x Hx. unfold iter_watchers in Hx.
    apply list_lookup_fmap_Some in Hx as ([l x'] & -> & Hw).
    eapply dense_lookup; eauto. }
  split.
  - intros i j x y Hx Hy E. apply Hat in Hx, Hy. congruence.
  - intros k raised sub j y Hk Hy Hj. apply Hat in Hy. rewrite Hy.
    destruct (pending_callable w k sub Hwf Hix Hk) as (l & x & m & h & Hw & Hx & Hm & Hh).
    destruct (dense_lookup w _ l x Hwf Hd Hw) as [-> _].
    rewrite complete_effect, Hk.
    erewrite on_done_exact; [|psimpl; eassumption..].
    cbv zeta. destruct (call_positional4 _ _ _ _ _); psimpl;
      apply list_lookup_insert_ne; congruence.
Qed.

Lemma watchers_are_isolated_witness :
  let w := exec_events sample_run sample_worker in
  (∀ i j x y, iter_watchers w !! i = Some x → iter_watchers w !! j = Some y →
              _metrics x = _metrics y → i = j) ∧
  (∀ k raised sub j y,
      in_flight w !! k = Some sub → iter_watchers w !! j = Some y →
      j ≠ sub_index sub →
      heap (snd (complete k raised w)) !! _metrics y = heap w !! _metrics y).
Proof.
  apply (watchers_are_isolated two_callables SynchronousExecutor "last_finished"
           counting_clock sample_worker sample_run).
  vm_compute. reflexivity.
Defined.

(** ** The strategies with jitter *)




(** ** A callable never runs twice at once *)

(** X16: in a state reached from construction by events in which every
    completion callback returned and [reset] was called at rest, no two
    pending futures are runs of the same callable, and a callable with a
    pending future has no entry in the schedule and none in the immediates:
    it is not submitted again before its run completed. *)
Theorem no_overlapping_runs callables ex name now w0 evs :
  new_PeriodicWorker callables ex name now = Return w0 →
  quiet evs w0 = true →
  let w := exec_events evs w0 in
  NoDup (map sub_index (in_flight w)) ∧
  ∀ sub, sub ∈ in_flight w →
         heap_entries w (sub_index sub) = 0%nat ∧
         immediate_entries w (sub_index sub) = 0%nat.
Proof.
  intros Hnew Hq w.
  destruct (reachable_invariants callables ex name now w0 evs Hnew) as [_ Hacc].
  specialize (Hacc Hq). fold w in Hacc. clearbody w. destruct Hacc as [Hp _].
  assert (Hnd : NoDup (map snd (_schedule w) ++ _immediates w
                       ++ map sub_index (in_flight w))).
  { rewrite Hp. apply NoDup_seq. }
  apply NoDup_app in Hnd as (_ & Hs & Hnd).
  apply NoDup_app in Hnd as (_ & Hi & Hnd).
  split; [exact Hnd|]. intros sub Hsub.
  assert (Hin : sub_index sub ∈ map sub_index (in_flight w)).
  { apply list_elem_of_fmap. exists sub. split; [reflexivity|exact Hsub]. }
  split.
  - unfold heap_entries. rewrite <- filter_map_snd. apply filter_eq_not_in.
    intros H. apply (Hs _ H). apply elem_of_app. now right.
  - unfold immediate_entries. apply filter_eq_not_in.
    intros H. apply (Hi _ H). exact Hin.
Qed.

Lemma no_overlapping_runs_witness :
  let w := exec_events [EvImmediates; EvScheduled] sample_worker in
  NoDup (map sub_index (in_flight w)) ∧
  ∀ sub, sub ∈ in_flight w →
         heap_entries w (sub_index sub) = 0%nat ∧
         immediate_entries w (sub_index sub) = 0%nat.
Proof.
  apply (no_overlapping_runs two_callables SynchronousExecutor "last_finished"
           counting_clock sample_worker [EvImmediates; EvScheduled]).
  - vm_compute. reflexivity.
  - vm_compute. reflexivity.
Defined.

(** ** What the scheduled phase submits *)

(** X17: in every state reached from construction, a turn of
    [_process_scheduled] loses no entry: either nothing is submitted and the
    schedule holds the entries it held, or exactly one run is submitted, for
    the entry that is least in the schedule (the earliest deadline, and the
    lowest index among equal deadlines), whose deadline is not after the
    reading of the clock taken in this turn; that entry leaves the schedule
    and the others stay.  Nothing is submitted once [stop] was called, nor
    while an immediate is waiting. *)
Theorem scheduled_never_early callables ex name now w0 evs (r : runner) :
  new_PeriodicWorker callables ex name now = Return w0 →
  let w := exec_events evs w0 in
  let w' := snd (_process_scheduled r w) in
  _immediates w' = _immediates w ∧
  ((in_flight w' = in_flight w ∧ _schedule w' ≡ₚ _schedule w) ∨
   ∃ sub next_run,
     in_flight w' = in_flight w ++ [sub] ∧
     _schedule w ≡ₚ (next_run, sub_index sub) :: _schedule w' ∧
     Forall (fun e => entry_ltb e (next_run, sub_index sub) = false) (_schedule w') ∧
     next_run <= _now_func w (ticks w) ∧
     sub_submitted_at sub = _now_func w (ticks w) ∧
     sub_kind sub = PERIODIC ∧ sub_runner sub = r ∧
     (∃ c, _callables w !! sub_index sub = Some c ∧ sub_cb sub = c.1.1.1) ∧
     _tombstone w = false ∧ _immediates w = []).
Proof.
  intros Hnew w.
  destruct (reachable_indexed callables ex name now w0 evs Hnew) as [_ Hix].
  fold w in Hix. clearbody w. cbv zeta. rewrite process_scheduled_effect.
  assert (Hnone : _immediates (Return tt, w).2 = _immediates w ∧
                  ((in_flight (Return tt, w).2 = in_flight w ∧
                    _schedule (Return tt, w).2 ≡ₚ _schedule w) ∨
                   ∃ sub next_run,
                     in_flight (Return tt, w).2 = in_flight w ++ [sub] ∧
                     _schedule w ≡ₚ (next_run, sub_index sub) :: _schedule (Return tt, w).2 ∧
                     Forall (fun e => entry_ltb e (next_run, sub_index sub) = false)
                            (_schedule (Return tt, w).2) ∧
                     next_run <= _now_func w (ticks w) ∧
                     sub_submitted_at sub = _now_func w (ticks w) ∧
                     sub_kind sub = PERIODIC ∧ sub_runner sub = r ∧
                     (∃ c, _callables w !! sub_index sub = Some c ∧ sub_cb sub = c.1.1.1) ∧
                     _tombstone w = false ∧ _immediates w = []))
    by (split; [reflexivity|left; split; reflexivity]).
  destruct (is_empty (_schedule w) && negb (_tombstone w) && is_empty (_immediates w));
    [exact Hnone|].
  destruct (_tombstone w) eqn:Ht; [exact Hnone|].
  destruct (negb (is_empty (_immediates w))) eqn:Him; [exact Hnone|].
  clear Hnone.
  assert (Him' : _immediates w = []).
  { destruct (_immediates w); [reflexivity|discriminate Him]. }
  destruct (heappop (_schedule w)) as [[[next_run index] rest]|e] eqn:Hpop;
    [|split; [reflexivity|left; split; reflexivity]].
  apply heappop_least in Hpop as [Hperm Hleast].
  destruct Hix as (I1 & _ & _). rewrite Hperm in I1.
  apply Forall_cons in I1 as [Hlt _]. cbn [snd] in Hlt.
  destruct (Qle_bool (next_run - _now_func w (ticks w)) 0) eqn:Hdue.
  - destruct (_callables w !! index) as [[[[cb nm] a] k]|] eqn:Hc;
      [|apply lookup_ge_None in Hc; lia].
    psimpl. split; [reflexivity|]. right. eexists _, next_run.
    split; [reflexivity|]. cbn [sub_index sub_submitted_at sub_kind sub_runner sub_cb].
    split; [exact Hperm|]. split; [exact Hleast|].
    split; [apply Qle_bool_iff in Hdue; lra|].
    split; [reflexivity|]. split; [reflexivity|]. split; [reflexivity|].
    split; [eexists; split; [exact Hc|reflexivity]|]. split; [reflexivity|exact Him'].
  - psimpl. split; [reflexivity|]. left. split; [reflexivity|].
    unfold heappush. rewrite Hperm. solve_Permutation.
Qed.

Lemma scheduled_never_early_witness :
  let w := exec_events [EvImmediates; EvDone 0 false] sample_worker in
  let w' := snd (_process_scheduled _run_callback_retain w) in
  _immediates w' = _immediates w ∧
  ((in_flight w' = in_flight w ∧ _schedule w' ≡ₚ _schedule w) ∨
   ∃ sub next_run,
     in_flight w' = in_flight w ++ [sub] ∧
     _schedule w ≡ₚ (next_run, sub_index sub) :: _schedule w' ∧
     Forall (fun e => entry_ltb e (next_run, sub_index sub) = false) (_schedule w') ∧
     next_run <= _now_func w (ticks w) ∧
     sub_submitted_at sub = _now_func w (ticks w) ∧
     sub_kind sub = PERIODIC ∧ sub_runner sub = _run_callback_retain ∧
     (∃ c, _callables w !! sub_index sub = Some c ∧ sub_cb sub = c.1.1.1) ∧
     _tombstone w = false ∧ _immediates w = []).
Proof.
  apply (scheduled_never_early two_callables SynchronousExecutor "last_finished"
           counting_clock sample_worker [EvImmediates; EvDone 0 false]
           _run_callback_retain).
  vm_compute. reflexivity.
Defined.

(** ** The first schedule *)

Lemma build_loop_exact items :
  Forall (fun ic : nat * (callback * string * pyargs * pyargs) => registered ic.2) items →
  ∀ sched now imm s,
    _build_loop _now_plus_periodicity items sched now imm s =
    let t := default (_now_func s (ticks s)) now in
    let due := omap (first_deadline t) items in
    (Return (imm ++ omap first_immediate items, sched ++ due),
     match now, due with
     | None, _ :: _ => set_ticks (S (ticks s)) s
     | _, _ => s
     end).
Proof.
  induction 1 as [|[index [[[cb nm] a] k]] items Hreg _ IH]; intros sched now imm s.
  - cbn. rewrite !app_nil_r. destruct now; reflexivity.
  - apply registered_attrs in Hreg as (h & b & Hh & Hb).
    assert (D : ∀ t, first_deadline t (index, (cb, nm, a, k))
                     = if b then None else Some (h + t, index)).
    { intros t. unfold first_deadline. cbn [fst snd]. rewrite Hb, Hh.
      destruct b; reflexivity. }
    assert (I : first_immediate (index, (cb, nm, a, k))
                = if b then Some index else None).
    { unfold first_immediate. cbn [fst snd]. rewrite Hb. destruct b; reflexivity. }
    cbn [_build_loop]. munfold.
    unfold get_periodic_run_immediately, getattr. rewrite Hb.
    cbv zeta. cbn [omap list_omap]. rewrite D, I.
    destruct b.
    + rewrite IH. cbv zeta. rewrite <- app_assoc. reflexivity.
    + unfold _now_plus_periodicity, get_periodic_spacing, getattr. rewrite Hh.
      destruct now as [t|]; munfold; rewrite IH; cbv zeta; cbn [default];
        unfold heappush; rewrite <- app_assoc; psimpl; [reflexivity|].
      destruct (omap _ items); reflexivity.
Qed.

Lemma init_callables_flags cs :
  ∀ s r s1, init_callables cs s = (r, s1) →
    _tombstone s1 = _tombstone s ∧ _active s1 = _active s ∧
    _dead s1 = _dead s ∧ _now_func s1 = _now_func s.
Proof.
  induction cs as [|[[cb args] kwargs] rest IH]; intros s r s1;
    [intros [= _ <-]; auto|].
  cbn [init_callables].
  destruct (cb_callable cb); cbn [negb]; [|intros [= _ <-]; auto].
  destruct (is_empty (_check_attrs cb)); cbn [negb]; [|intros [= _ <-]; auto].
  munfold. unfold get_is_periodic, getattr.
  destruct (_is_periodic cb) as [[]|]; psimpl; [| |intros [= _ <-]; auto].
  - match goal with |- context [init_callables rest ?s2] =>
      specialize (IH s2); destruct (init_callables rest s2) as [[[]|e] s3] end;
      intros [= _ <-]; apply (IH _ _ eq_refl).
  - specialize (IH s); destruct (init_callables rest s) as [[[]|e] s3];
      intros [= _ <-]; apply (IH _ _ eq_refl).
Qed.

(** X18: the constructor reads the clock at most once, and not at all when
    every callable runs immediately; the schedule it builds holds, for each
    registered callable that does not run immediately, the entry of its
    index with the deadline [spacing + that reading], and nothing else; the
    immediates are the indices of the callables that run immediately, in the
    order of registration. *)
Theorem first_schedule callables ex name now w0 :
  new_PeriodicWorker callables ex name now = Return w0 →
  let due := omap (first_deadline (now 0%nat)) (enumerate (_callables w0)) in
  _schedule w0 ≡ₚ due ∧
  _immediates w0 = omap first_immediate (enumerate (_callables w0)) ∧
  ticks w0 = (if is_empty due then 0 else 1)%nat ∧
  in_flight w0 = [] ∧ _tombstone w0 = false ∧ _active w0 = false ∧ _dead w0 = false.
Proof.
  unfold new_PeriodicWorker, __init__. munfold.
  destruct (init_callables_effect callables (fresh ex now) (fresh_well_formed ex now))
    as (r & s1 & E & Hwf1 & _ & _ & F3 & F4 & Hr).
  destruct (init_callables_flags _ _ _ _ E) as (G1 & G2 & G3 & G4).
  cbn [fresh _tombstone _active _dead _now_func in_flight ticks] in G1, G2, G3, G4, F3, F4.
  rewrite E. destruct Hr as [->|[msg ->]]; [|discriminate].
  rewrite built_in_strategies.
  destruct (strategy_table !! name) as [[post initial]|] eqn:Hl; [|discriminate].
  apply strategy_table_Some in Hl as [_ ->]. psimpl.
  destruct Hwf1 as (_ & _ & H3 & _).
  unfold _build. rewrite build_loop_exact; cycle 1.
  { unfold enumerate. clear -H3. generalize 0%nat.
    induction H3 as [|c cs Hc _ IH]; intros n; constructor; auto. }
  cbv zeta. psimpl. cbn [default app]. rewrite F4, G4.
  intros [= <-]. cbv zeta.
  destruct (omap (first_deadline (now 0%nat)) (enumerate (_callables s1))) eqn:Hdue;
    psimpl; rewrite ?Hdue; repeat split; first [assumption|reflexivity].
Qed.

Lemma first_schedule_witness :
  let due := omap (first_deadline (counting_clock 0%nat))
                  (enumerate (_callables sample_worker)) in
  _schedule sample_worker ≡ₚ due ∧
  _immediates sample_worker = omap first_immediate (enumerate (_callables sample_worker)) ∧
  ticks sample_worker = (if is_empty due then 0 else 1)%nat ∧
  in_flight sample_worker = [] ∧ _tombstone sample_worker = false ∧
  _active sample_worker = false ∧ _dead sample_worker = false.
Proof.
  apply (first_schedule two_callables SynchronousExecutor "last_finished"
           counting_clock sample_worker).
  vm_compute. reflexivity.
Defined.

Lemma enumerate_registered (cs : list (callback * string * pyargs * pyargs)) :
  Forall registered cs →
  Forall (fun ic : nat * (callback * string * pyargs * pyargs) => registered ic.2)
         (enumerate cs).
Proof.
  unfold enumerate. generalize 0%nat.
  intros n H. revert n. induction H as [|c cs Hc _ IH]; intros n; constructor; auto.
Qed.

(** X19: in every state reached from construction, [reset] gives every
    callable that does not run immediately the deadline [spacing + now]
    for one reading of the clock taken in the call (none is taken when all
    callables run immediately), and makes the immediates the callables that
    run immediately, in the order of registration, whatever the schedule and
    the immediates held before.  The pending futures are not touched, nor is
    [active]: a run that completes after the reset pushes a second entry for
    its callable. *)
Theorem reset_rebuilds_schedule callables ex name now w0 evs :
  new_PeriodicWorker callables ex name now = Return w0 →
  let w := exec_events evs w0 in
  let w' := snd (reset w) in
  let due := omap (first_deadline (_now_func w (ticks w))) (enumerate (_callables w)) in
  _schedule w' ≡ₚ due ∧
  _immediates w' = omap first_immediate (enumerate (_callables w)) ∧
  ticks w' = (if is_empty due then ticks w else S (ticks w)) ∧
  in_flight w' = in_flight w ∧ _active w' = _active w ∧
  _schedule_strategy w' = _schedule_strategy w.
Proof.
  intros Hnew w.
  destruct (reachable_indexed callables ex name now w0 evs Hnew) as [Hwf _].
  fold w in Hwf. clearbody w.
  destruct (reset_effect w Hwf) as (h' & imm & sched & t' & E & Eb & _).
  cbn zeta in E, Eb. cbv zeta. rewrite E. cbn [snd].
  destruct Hwf as (_ & _ & H3 & H4 & _). rewrite H4 in Eb.
  unfold _build in Eb. rewrite build_loop_exact in Eb by now apply enumerate_registered.
  cbv zeta in Eb. cbn [default app] in Eb. psimpl.
  destruct (omap (first_deadline (_now_func w (ticks w))) (enumerate (_callables w)))
    eqn:Hdue; injection Eb as <- <- Ht; psimpl; subst t';
    repeat split; reflexivity.
Qed.

Lemma reset_rebuilds_schedule_witness :
  let w := exec_events sample_run sample_worker in
  let w' := snd (reset w) in
  let due := omap (first_deadline (_now_func w (ticks w))) (enumerate (_callables w)) in
  _schedule w' ≡ₚ due ∧
  _immediates w' = omap first_immediate (enumerate (_callables w)) ∧
  ticks w' = (if is_empty due then ticks w else S (ticks w)) ∧
  in_flight w' = in_flight w ∧ _active w' = _active w ∧
  _schedule_strategy w' = _schedule_strategy w.
Proof.
  apply (reset_rebuilds_schedule two_callables SynchronousExecutor "last_finished"
           counting_clock sample_worker sample_run).
  vm_compute. reflexivity.
Defined.

(** ** The summary at the end of start *)

Lemma reported_app l1 l2 : reported (l1 ++ l2) = reported l1 ++ reported l2.
Proof. unfold reported. apply omap_app. Qed.

Lemma on_finish_loop_returns ws :
  ∀ k log s,
    (∀ j x, ws !! j = Some x →
       ∃ c h m, _callables s !! (k + j)%nat = Some c ∧
                _periodic_spacing c.1.1.1 = Some h ∧
                heap s !! _metrics x = Some m) →
    ∃ log', _on_finish_loop (enumerate_from k ws) log s = (Return log', s) ∧
            reported log' = reported log ++ seq k (length ws).
Proof.
  induction ws as [|x ws IH]; intros k log s H.
  - exists log. cbn. rewrite app_nil_r. auto.
  - destruct (H 0%nat x eq_refl) as ([[[cb nm] a] kw] & h & m & Hc & Hh & Hm).
    rewrite Nat.add_0_r in Hc. cbn [fst] in Hh.
    cbn [enumerate_from _on_finish_loop].
    unfold Watcher_runs, Watcher_failures, Watcher_successes, Watcher_average_elapsed,
      Watcher_average_elapsed_waiting, except_ZeroDivisionError, get_periodic_spacing,
      getattr, py_div.
    munfold. rewrite Hc, Hh, Hm.
    assert (Hrest : ∀ j y, ws !! j = Some y →
              ∃ c h m, _callables s !! (S k + j)%nat = Some c ∧
                       _periodic_spacing c.1.1.1 = Some h ∧
                       heap s !! _metrics y = Some m).
    { intros j y Hy. destruct (H (S j) y Hy) as (c & h' & m' & H1 & H2 & H3).
      exists c, h', m'. replace (S k + j)%nat with (k + S j)%nat by lia. auto. }
    repeat first [ rewrite Hm
                 | progress cbv beta iota zeta
                 | match goal with
                   | |- context [Qeq_dec ?a ?b] => destruct (Qeq_dec a b)
                   end ];
      match goal with |- context [_on_finish_loop _ ?lg s] =>
        destruct (IH (S k) lg s Hrest) as (log' & E & R) end;
      exists log'; (split; [exact E|]);
      rewrite R, !reported_app; cbn [reported omap list_omap app length seq];
      rewrite !app_nil_r, <- app_assoc; reflexivity.
Qed.

(** X20: in every state reached from construction, [_on_finish] returns and
    leaves the worker as it was, whether or not a callable ever ran (the
    division by zero runs of the averages is caught): it reports every
    registered callable, in the order of registration, and nothing when the
    debug level is not enabled.  So the last step of [start] cannot make it
    raise. *)
Theorem on_finish_returns callables ex name now w0 evs (debug_enabled : bool) :
  new_PeriodicWorker callables ex name now = Return w0 →
  let w := exec_events evs w0 in
  ∃ log, _on_finish debug_enabled w = (Return log, w) ∧
         reported log = (if debug_enabled then seq 0 (__len__ w) else []) ∧
         (debug_enabled = false → log = []).
Proof.
  intros Hnew w.
  destruct (reachable_indexed callables ex name now w0 evs Hnew) as [Hwf _].
  fold w in Hwf. clearbody w. unfold _on_finish.
  destruct debug_enabled; cbn [negb]; [|exists []; repeat split].
  munfold.
  destruct Hwf as (_ & W2 & W3 & _ & W5).
  destruct (on_finish_loop_returns (iter_watchers w) 0 [] w) as (log & E & R).
  { intros j x Hx. unfold iter_watchers in Hx.
    apply list_lookup_fmap_Some in Hx as ([l x'] & -> & Hw).
    rewrite Forall_lookup in W2. destruct (W2 _ _ Hw) as [Hl Hlt]. cbn in Hl, Hlt.
    destruct (lookup_lt_is_Some_2 (_callables w) j) as [c Hc].
    { rewrite <- W5. eapply lookup_lt_Some. exact Hw. }
    rewrite Forall_lookup in W3. destruct (W3 _ _ Hc) as (_ & [h Hh] & _).
    destruct (lookup_lt_is_Some_2 _ _ Hlt) as [m Hm].
    exists c, h, m. cbn [snd]. rewrite Hl. auto. }
  exists log. split; [exact E|]. split; [|discriminate].
  rewrite R. unfold iter_watchers, __len__. rewrite length_map, W5. reflexivity.
Qed.

Lemma on_finish_returns_witness :
  let w := exec_events sample_run sample_worker in
  ∃ log, _on_finish true w = (Return log, w) ∧
         reported log = seq 0 (__len__ w) ∧
         (true = false → log = []).
Proof.
  apply (on_finish_returns two_callables SynchronousExecutor "last_finished"
           counting_clock sample_worker sample_run true).
  vm_compute. reflexivity.
Defined.


(** X21: [_add_jitter] accepts exactly the percentages from 0 to 1.  The
    strategy it makes of any other never returns a deadline, however it is
    called: with the four positional arguments of the completion callback it
    does not take the call, and with the three it declares it raises at the
    latest when it asks [random] for a number. *)
Theorem jitter_never_returns (max_percent_jitter : Q) :
  if Qle_bool 0 max_percent_jitter && Qle_bool max_percent_jitter 1 then
    ∃ wrapper,
      _add_jitter max_percent_jitter = Return wrapper ∧
      ∀ func cb started_at finished_at metrics now,
        returned (call_positional4 (wrapper func) cb started_at finished_at metrics)
          = false ∧
        returned (call_with_now (wrapper func) cb metrics now) = false
  else
    ∃ msg, _add_jitter max_percent_jitter = Raise (ValueError msg).
Proof.
  unfold _add_jitter.
  destruct (Qlt_le_dec 1 max_percent_jitter) as [H1|H1].
  - replace (Qle_bool max_percent_jitter 1) with false; [rewrite andb_false_r; eauto|].
    symmetry. apply not_true_is_false. intros H. apply Qle_bool_iff in H. lra.
  - destruct (Qlt_le_dec max_percent_jitter 0) as [H0|H0].
    + replace (Qle_bool 0 max_percent_jitter) with false; [cbn [andb]; eauto|].
      symmetry. apply not_true_is_false. intros H. apply Qle_bool_iff in H. lra.
    + rewrite (proj2 (Qle_bool_iff _ _) H0), (proj2 (Qle_bool_iff _ _) H1). cbn [andb].
      eexists. split; [reflexivity|]. intros func cb t0 t1 m now.
      split; [reflexivity|].
      cbn [call_with_now _add_jitter_wrapper].
      destruct (call_with_now func cb m now); cbn; [|reflexivity].
      destruct (get_periodic_spacing cb); reflexivity.
Qed.

(** ** Workers without jitter reschedule what they ran *)




